(** * WESCO cleanup verification script: a shallow embedding

    Source: [src/verify_wesco_cleanup.py].  The script reads six JSON files
    under [supplyfind-updates/us/co], keeps the branch records that mention
    WESCO or KVA, deduplicates them by location and runs a fixed checklist.

    Modelling choices, all local to this file:
    - a branch record (a JSON object) is a [gmap string string]: the fields
      the script reads hold JSON strings, and a key may be absent;
    - [dict.get(k)] is the map lookup, its Python [None] is Rocq's [None];
    - the console is the list of printed lines, in order;
    - an uncaught Python exception is the outcome [Raise], which keeps the
      lines printed before it;
    - the file system is either without the base directory, or a finite map
      from the paths below the base directory to file contents. *)

From stdpp Require Import base option list strings pretty gmap fin_maps fin_sets.

(** ** Python strings *)

(** [needle in hay] on two [str] values. *)
Fixpoint str_in (needle hay : string) : bool :=
  if String.prefix needle hay then true
  else match hay with
       | EmptyString => false
       | String _ hay' => str_in needle hay'
       end.

(** What "the substring occurs in" means, independent of the scan above. *)
Definition occurs_in (needle hay : string) : Prop :=
  ∃ pre post, hay = pre +:+ needle +:+ post.

(** [str(v)] as an f-string placeholder renders it, for a string or [None]. *)
Definition py_str (v : option string) : string :=
  match v with
  | Some s => s
  | None => "None"
  end.

(** [v == s] for a field value [v] and a string literal [s]. *)
Definition py_eq (v : option string) (s : string) : bool :=
  bool_decide (v = Some s).

(** ** Outcomes and the console *)

Inductive exn : Type := JSONDecodeError | TypeError.

Inductive result (A : Type) : Type :=
  | Return (a : A)
  | Raise (e : exn).
Arguments Return {A} a.
Arguments Raise {A} e.

Global Instance exn_eq_dec : EqDecision exn.
Proof. solve_decision. Defined.

Global Instance result_eq_dec {A} `{EqDecision A} : EqDecision (result A).
Proof. solve_decision. Defined.

(** A run: the lines printed, and how the run ended. *)
Definition M (A : Type) : Type := (list string * result A)%type.

Definition ret {A} (a : A) : M A := ([], Return a).

Definition raise {A} (e : exn) : M A := ([], Raise e).

Definition bind {A B} (m : M A) (k : A → M B) : M B :=
  match m with
  | (o, Return a) => let '(o', r) := k a in (o ++ o', r)
  | (o, Raise e) => (o, Raise e)
  end.

Definition print (line : string) : M unit := ([line], Return tt).

Definition lift {A} (r : result A) : M A := ([], r).

Declare Scope run_scope.
Delimit Scope run_scope with run.
Notation "x <~ m ; k" := (bind m (λ x, k))
  (at level 100, m at next level, k at level 200, right associativity) : run_scope.
Notation "m >> k" := (bind m (λ _, k))
  (at level 100, k at level 200, right associativity) : run_scope.
Open Scope run_scope.

(** [needle in v] where [v] may be [None]: Python raises TypeError then. *)
Definition py_in (needle : string) (v : option string) : result bool :=
  match v with
  | Some s => Return (str_in needle s)
  | None => Raise TypeError
  end.

(** [a and b], where only [b] can raise and is evaluated only if [a] holds. *)
Definition py_and (a : bool) (b : result bool) : result bool :=
  if a then b else Return false.

(** [[x for x in l if cond(x)]] with a condition that can raise. *)
Fixpoint comprehension {A} (cond : A → result bool) (l : list A) : result (list A) :=
  match l with
  | [] => Return []
  | x :: l' =>
      match cond x with
      | Raise e => Raise e
      | Return b =>
          match comprehension cond l' with
          | Raise e => Raise e
          | Return r => Return (if b then x :: r else r)
          end
      end
  end.

(** ** Data model *)

(** One element of a file's [branches] array. *)
Abbreviation branch := (gmap string string).

(** The dictionary appended to [all_wesco_entries] (source lines 69-78). *)
Record matched_entry : Type := MatchedEntry {
  file : string;
  name : option string;
  chain : option string;
  city : option string;
  address : option string;
  phone : option string;
  verified : option string;
  operating_name : option string
}.

(** A file that exists: either not valid JSON, or a document whose
    [branches] key may be absent. *)
Inductive file_content : Type :=
  | Malformed
  | Document (branches : option (list branch)).

(** The file system as the script sees it; [files] is keyed by the path
    below [base_dir]. *)
Inductive filesystem : Type :=
  | NoBaseDir
  | BaseDir (files : gmap string file_content).

(** [base_dir / ...] below [base_dir = supplyfind-updates/us/co]. *)
Definition files_to_check : list string :=
  [ "denver-metro.json";
    "electrical/denver-metro.json";
    "electrical/front-range-north.json";
    "electrical/pueblo-south.json";
    "electrical/colorado-springs-metro.json";
    "electrical/boulder-broomfield-longmont.json" ].

(** [filepath.relative_to('supplyfind-updates')] as a string. *)
Definition relative_to_updates (filepath : string) : string :=
  "us/co/" +:+ filepath.

Definition banner : string :=
  "================================================================================".

(** ** Filter (source lines 56-61) *)

Definition is_wesco (b : branch) : bool :=
  str_in "WESCO" (default "" (b !! "chain"))
  || str_in "WESCO" (default "" (b !! "name"))
  || str_in "KVA" (default "" (b !! "name")).

Definition wesco_entries_of (branches : list branch) : list branch :=
  List.filter is_wesco branches.

(** ** Aggregate (source lines 46-83) *)

Definition make_entry (filepath : string) (b : branch) : matched_entry :=
  {| file := relative_to_updates filepath;
     name := b !! "name";
     chain := b !! "chain";
     city := b !! "city";
     address := b !! "address1";
     phone := b !! "phone";
     verified := b !! "last_verified";
     operating_name := b !! "operatingName" |}.

(** The inner loop over [wesco_entries] (lines 68-82). *)
Fixpoint record_entries (filepath : string) (wesco_entries : list branch)
    (all_wesco_entries : list matched_entry) : M (list matched_entry) :=
  match wesco_entries with
  | [] => ret all_wesco_entries
  | b :: rest =>
      let all_wesco_entries := all_wesco_entries ++ [make_entry filepath b] in
      print ("   └─ " +:+ py_str (b !! "name")) >>
      print ("      Chain: " +:+ py_str (b !! "chain")) >>
      print ("      Address: " +:+ py_str (b !! "address1") +:+ ", " +:+ py_str (b !! "city")) >>
      record_entries filepath rest all_wesco_entries
  end.

(** One iteration of the loop over [files_to_check]. *)
Definition scan_file (files : gmap string file_content)
    (acc : list matched_entry * nat) (filepath : string) : M (list matched_entry * nat) :=
  let '(all_wesco_entries, total_branches) := acc in
  match files !! filepath with
  | None => ret acc
  | Some Malformed => raise JSONDecodeError
  | Some (Document data) =>
      let branches := default [] data in
      let total_branches := total_branches + length branches in
      let wesco_entries := wesco_entries_of branches in
      match wesco_entries with
      | [] => ret (all_wesco_entries, total_branches)
      | _ :: _ =>
          print ("📁 " +:+ relative_to_updates filepath) >>
          print ("   Total branches: " +:+ pretty (length branches)) >>
          print ("   WESCO/KVA entries: " +:+ pretty (length wesco_entries)) >>
          all_wesco_entries <~ record_entries filepath wesco_entries all_wesco_entries;
          print "" >>
          ret (all_wesco_entries, total_branches)
      end
  end.

Fixpoint scan_files (files : gmap string file_content) (paths : list string)
    (acc : list matched_entry * nat) : M (list matched_entry * nat) :=
  match paths with
  | [] => ret acc
  | filepath :: rest =>
      acc <~ scan_file files acc filepath;
      scan_files files rest acc
  end.

(** ** Deduplicate (source lines 93-97) *)

Definition location_key (e : matched_entry) : string :=
  py_str (city e) +:+ "-" +:+ py_str (address e).

Definition dedup_step (unique_locations : gmap string matched_entry) (e : matched_entry)
    : gmap string matched_entry :=
  let key := location_key e in
  match unique_locations !! key with
  | Some _ => unique_locations
  | None => <[key := e]> unique_locations
  end.

Definition dedup (all_wesco_entries : list matched_entry) : gmap string matched_entry :=
  foldl dedup_step ∅ all_wesco_entries.

(** ** Validate (source lines 103-202) *)

(** Each check below receives the current value of [success] and returns
    the value the variable has after it: a failing branch is the source's
    [success = False], every other branch leaves the variable alone. *)

(** Lines 105-110. *)
Definition check_unique (unique_locations : gmap string matched_entry)
    (success : bool) : M bool :=
  if decide (size unique_locations ≠ 2) then
    print ("❌ FAIL: Expected exactly 2 unique WESCO locations, found "
           +:+ pretty (size unique_locations)) >>
    ret false
  else
    print "✅ PASS: Exactly 2 unique WESCO/KVA locations found" >>
    print "   (Note: Entries may appear in both metro and trade-specific files)" >>
    ret success.

(** The condition of the comprehension at lines 113-116. *)
Definition is_denver_kva (e : matched_entry) : result bool :=
  py_and (py_eq (city e) "Denver") (py_in "11198 E 45th" (address e)).

(** The generator handed to [all] at lines 124-127. *)
Definition consistent (e : matched_entry) : bool :=
  py_eq (name e) "KVA Supply Co" && py_eq (chain e) "WESCO".

(** Lines 113-147.  [len(denver_kva) < 1] is the empty list, and
    [denver_kva[0]] is the head in the other branch. *)
Definition check_denver (all_wesco_entries : list matched_entry)
    (success : bool) : M bool :=
  denver_kva <~ lift (comprehension is_denver_kva all_wesco_entries);
  match denver_kva with
  | [] =>
      print ("❌ FAIL: Expected at least 1 Denver KVA Supply Co entry, found "
             +:+ pretty (length denver_kva)) >>
      ret false
  | entry :: _ =>
      let all_consistent := forallb consistent denver_kva in
      if negb all_consistent then
        print "❌ FAIL: Denver KVA Supply Co entries are inconsistent" >>
        ret false
      else if negb (py_eq (name entry) "KVA Supply Co") then
        print ("❌ FAIL: Denver entry name is '" +:+ py_str (name entry)
               +:+ "', expected 'KVA Supply Co'") >>
        ret false
      else if negb (py_eq (chain entry) "WESCO") then
        print ("❌ FAIL: Denver entry chain is '" +:+ py_str (chain entry)
               +:+ "', expected 'WESCO'") >>
        ret false
      else if negb (py_eq (operating_name entry) "KVA Supply Co") then
        print "⚠️  WARNING: Denver entry missing 'operatingName' field" >>
        ret success
      else
        print "✅ PASS: Denver KVA Supply Co entry correctly configured" >>
        print ("   Name: " +:+ py_str (name entry)) >>
        print ("   Chain: " +:+ py_str (chain entry)) >>
        print ("   Operating Name: " +:+ py_str (operating_name entry)) >>
        print ("   Phone: " +:+ py_str (phone entry)) >>
        (if decide (1 < length denver_kva) then
           print ("   (Appears in " +:+ pretty (length denver_kva)
                  +:+ " files - metro + trade)")
         else ret tt) >>
        ret success
  end.

(** The condition of the comprehension at lines 150-153. *)
Definition is_pueblo_wesco (e : matched_entry) : result bool :=
  py_and (py_eq (city e) "Pueblo") (py_in "115 S Main" (address e)).

(** Lines 150-166.  [len(pueblo_wesco) != 1] is every list but a singleton,
    whose only element is [pueblo_wesco[0]]. *)
Definition check_pueblo (all_wesco_entries : list matched_entry)
    (success : bool) : M bool :=
  pueblo_wesco <~ lift (comprehension is_pueblo_wesco all_wesco_entries);
  match pueblo_wesco with
  | [entry] =>
      if negb (py_eq (chain entry) "WESCO") then
        print ("❌ FAIL: Pueblo entry chain is '" +:+ py_str (chain entry)
               +:+ "', expected 'WESCO'") >>
        ret false
      else
        print "✅ PASS: Pueblo WESCO entry correctly retained" >>
        print ("   Name: " +:+ py_str (name entry)) >>
        print ("   Phone: " +:+ py_str (phone entry)) >>
        ret success
  | _ =>
      print ("❌ FAIL: Expected 1 Pueblo WESCO entry, found "
             +:+ pretty (length pueblo_wesco)) >>
      ret false
  end.

Definition invalid_addresses : list string :=
  [ "756 S Jason"; "6883 E 47th"; "133 Commerce" ].

(** The body of the loop at lines 177-183. *)
Definition check_removed (all_wesco_entries : list matched_entry) (addr : string)
    (success : bool) : M bool :=
  found <~ lift (comprehension (λ e, py_in addr (address e)) all_wesco_entries);
  match found with
  | _ :: _ =>
      print ("❌ FAIL: Found entry that should have been removed: " +:+ addr) >>
      ret false
  | [] =>
      print ("✅ PASS: Confirmed removed: " +:+ addr) >>
      ret success
  end.

Fixpoint check_all_removed (all_wesco_entries : list matched_entry)
    (addrs : list string) (success : bool) : M bool :=
  match addrs with
  | [] => ret success
  | addr :: rest =>
      success <~ check_removed all_wesco_entries addr success;
      check_all_removed all_wesco_entries rest success
  end.

(** Lines 185-200. *)
Definition final_report (success : bool) : M unit :=
  print "" >>
  print banner >>
  (if success then
     print "✅ ALL CHECKS PASSED" >>
     print "" >>
     print "The WESCO cleanup has been successfully completed!" >>
     print "Only 2 verified WESCO locations remain:" >>
     print "  1. Denver - KVA Supply Co (11198 E 45th Ave)" >>
     print "  2. Pueblo - WESCO (115 S Main St)"
   else
     print "❌ SOME CHECKS FAILED" >>
     print "" >>
     print "Please review the errors above and correct the data files.") >>
  print banner.

Definition validate (all_wesco_entries : list matched_entry)
    (unique_locations : gmap string matched_entry) : M bool :=
  let success := true in
  success <~ check_unique unique_locations success;
  success <~ check_denver all_wesco_entries success;
  success <~ check_pueblo all_wesco_entries success;
  print "" >>
  print "Checking for removed entries..." >>
  success <~ check_all_removed all_wesco_entries invalid_addresses success;
  final_report success >>
  ret success.

(** ** The script *)

(** Lines 85-100. *)
Definition summary (all_wesco_entries : list matched_entry) (total_branches : nat)
    (unique_locations : gmap string matched_entry) : M unit :=
  print banner >>
  print "SUMMARY" >>
  print banner >>
  print ("Total branches scanned: " +:+ pretty total_branches) >>
  print ("Total WESCO/KVA entries found: " +:+ pretty (length all_wesco_entries)) >>
  print "" >>
  print ("Unique WESCO/KVA locations: " +:+ pretty (size unique_locations)) >>
  print "".

(** The function body, with the list of paths to scan as a parameter. *)
Definition verify_paths (paths : list string) (fs : filesystem) : M bool :=
  match fs with
  | NoBaseDir =>
      print "❌ Error: supplyfind-updates directory not found" >>
      print "   Make sure you're running this from the Price-Cal repository root" >>
      ret false
  | BaseDir files =>
      print banner >>
      print "WESCO CLEANUP VERIFICATION" >>
      print banner >>
      print "" >>
      acc <~ scan_files files paths ([], 0);
      let all_wesco_entries := acc.1 in
      let total_branches := acc.2 in
      let unique_locations := dedup all_wesco_entries in
      summary all_wesco_entries total_branches unique_locations >>
      validate all_wesco_entries unique_locations
  end.

Definition verify_wesco_cleanup (fs : filesystem) : M bool :=
  verify_paths files_to_check fs.

(** [sys.exit(0 if success else 1)]; an uncaught exception ends the
    interpreter with status 1. *)
Definition exit_status (fs : filesystem) : nat :=
  match (verify_wesco_cleanup fs).2 with
  | Return true => 0
  | Return false => 1
  | Raise _ => 1
  end.

(** ** A sample data set *)

Definition denver_kva_branch : branch :=
  <["name" := "KVA Supply Co"]> (<["chain" := "WESCO"]> (<["city" := "Denver"]>
  (<["address1" := "11198 E 45th Ave"]> (<["operatingName" := "KVA Supply Co"]> ∅)))).

Definition pueblo_wesco_branch : branch :=
  <["name" := "WESCO"]> (<["chain" := "WESCO"]> (<["city" := "Pueblo"]>
  (<["address1" := "115 S Main St"]> ∅))).

Definition other_branch : branch :=
  <["name" := "Graybar"]> (<["chain" := "Graybar"]> (<["city" := "Denver"]>
  (<["address1" := "1 Main St"]> ∅))).

Definition sample_files : gmap string file_content :=
  <["denver-metro.json" := Document (Some [other_branch; denver_kva_branch])]>
  (<["electrical/pueblo-south.json" := Document (Some [pueblo_wesco_branch])]> ∅).

(** ** Vocabulary of the checklist *)

(** The entry carries an [address1] value. *)
Definition has_address (e : matched_entry) : Prop := is_Some (address e).

(** The entry's address contains [needle]. *)
Definition address_has (needle : string) (e : matched_entry) : Prop :=
  ∃ a, address e = Some a ∧ occurs_in needle a.

(** The entry has city [c] and an address containing [needle]. *)
Definition located (c needle : string) (e : matched_entry) : Prop :=
  city e = Some c ∧ address_has needle e.

Definition address_hasb (needle : string) (e : matched_entry) : bool :=
  match address e with
  | Some a => str_in needle a
  | None => false
  end.

Definition locatedb (c needle : string) (e : matched_entry) : bool :=
  py_eq (city e) c && address_hasb needle e.

(** The value a check leaves in [success] when it starts from [True];
    a check that raises did not pass. *)
Definition passes (check : M bool) : bool :=
  match check.2 with
  | Return b => b
  | Raise _ => false
  end.

Definition is_fail_line (l : string) : Prop := String.prefix "❌ FAIL" l = true.
Definition is_pass_line (l : string) : Prop := String.prefix "✅ PASS" l = true.
Definition is_warning_line (l : string) : Prop := String.prefix "⚠️  WARNING" l = true.

(** The first line a check printed is its verdict, and agrees with [b]. *)
Definition verdict_reported (o : list string) (b : bool) : Prop :=
  ∃ l rest, o = l :: rest ∧
    if b then is_pass_line l ∨ is_warning_line l else is_fail_line l.

(** The checklist, in the order the script runs it. *)
Definition items (es : list matched_entry) (u : gmap string matched_entry)
    : list (bool → M bool) :=
  [ check_unique u;
    check_denver es;
    check_pueblo es;
    check_removed es "756 S Jason";
    check_removed es "6883 E 47th";
    check_removed es "133 Commerce" ].

(** What the Denver check decides, given the entries at the address. *)
Definition denver_verdict (denver_kva : list matched_entry) : bool :=
  match denver_kva with
  | [] => false
  | _ :: _ => forallb consistent denver_kva
  end.

(** What the Pueblo check decides, given the entries at the address. *)
Definition pueblo_verdict (pueblo_wesco : list matched_entry) : bool :=
  match pueblo_wesco with
  | [entry] => py_eq (chain entry) "WESCO"
  | _ => false
  end.

(** Lines 41-44. *)
Definition header : list string :=
  [banner; "WESCO CLEANUP VERIFICATION"; banner; ""].

(** The branch records of a file, none for a file that is missing. *)
Definition branches_at (files : gmap string file_content) (filepath : string)
    : list branch :=
  match files !! filepath with
  | Some (Document data) => default [] data
  | _ => []
  end.

(** The aggregate in file-list order, then intra-file order. *)
Definition aggregate (files : gmap string file_content) (paths : list string)
    : list matched_entry :=
  flat_map (λ p, make_entry p <$> wesco_entries_of (branches_at files p)) paths.

Definition total_scanned (files : gmap string file_content)
    (paths : list string) : nat :=
  sum_list (length ∘ branches_at files <$> paths).

(** The Denver entry the cleanup is expected to leave. *)
Definition expected_denver (e : matched_entry) : Prop :=
  city e = Some "Denver" ∧ name e = Some "KVA Supply Co"
  ∧ chain e = Some "WESCO" ∧ address e = Some "11198 E 45th Ave".

(** The Pueblo entry the cleanup is expected to leave. *)
Definition expected_pueblo (e : matched_entry) : Prop :=
  city e = Some "Pueblo" ∧ name e = Some "WESCO"
  ∧ chain e = Some "WESCO" ∧ address e = Some "115 S Main St".

Global Instance expected_denver_dec e : Decision (expected_denver e).
Proof. unfold expected_denver. apply _. Defined.

Global Instance expected_pueblo_dec e : Decision (expected_pueblo e).
Proof. unfold expected_pueblo. apply _. Defined.

(** The entry is at none of the removed addresses. *)
Definition not_forbidden (e : matched_entry) : Prop :=
  Forall (λ addr, ¬ address_has addr e) invalid_addresses.

(** A third location that matches the filter. *)
Definition boulder_wesco_branch : branch :=
  <["name" := "WESCO"]> (<["chain" := "WESCO"]> (<["city" := "Boulder"]>
  (<["address1" := "1 Pearl St"]> ∅))).

Definition three_location_files : gmap string file_content :=
  <["denver-metro.json" := Document (Some [denver_kva_branch])]>
  (<["electrical/pueblo-south.json" := Document (Some [pueblo_wesco_branch])]>
  (<["electrical/boulder-broomfield-longmont.json" :=
       Document (Some [boulder_wesco_branch])]> ∅)).

(** The console of a run that finds the base directory and no file in it. *)
Definition no_files_console : list string :=
  [ banner; "WESCO CLEANUP VERIFICATION"; banner; "";
    banner; "SUMMARY"; banner;
    "Total branches scanned: 0";
    "Total WESCO/KVA entries found: 0";
    "";
    "Unique WESCO/KVA locations: 0";
    "";
    "❌ FAIL: Expected exactly 2 unique WESCO locations, found 0";
    "❌ FAIL: Expected at least 1 Denver KVA Supply Co entry, found 0";
    "❌ FAIL: Expected 1 Pueblo WESCO entry, found 0";
    "";
    "Checking for removed entries...";
    "✅ PASS: Confirmed removed: 756 S Jason";
    "✅ PASS: Confirmed removed: 6883 E 47th";
    "✅ PASS: Confirmed removed: 133 Commerce";
    "";
    banner;
    "❌ SOME CHECKS FAILED";
    "";
    "Please review the errors above and correct the data files.";
    banner ].

(** The aggregate [all_wesco_entries] the scan of the expected files leaves,
    or the exception the scan ends with. *)
Definition matched_entries (files : gmap string file_content)
    : result (list matched_entry) :=
  match (scan_files files files_to_check ([], 0)).2 with
  | Return acc => Return acc.1
  | Raise e => Raise e
  end.

(** The Denver entry with another name next to the expected one. *)
Definition denver_other_branch : branch :=
  <["name" := "Other Co"]> (<["chain" := "WESCO"]> (<["city" := "Denver"]>
  (<["address1" := "11198 E 45th Ave"]> ∅))).

Definition inconsistent_files : gmap string file_content :=
  <["denver-metro.json" := Document (Some [denver_kva_branch])]>
  (<["electrical/denver-metro.json" := Document (Some [denver_other_branch])]>
  (<["electrical/pueblo-south.json" := Document (Some [pueblo_wesco_branch])]> ∅)).

(** An entry at one of the removed addresses. *)
Definition jason_branch : branch :=
  <["name" := "WESCO"]> (<["chain" := "WESCO"]> (<["city" := "Denver"]>
  (<["address1" := "756 S Jason St"]> ∅))).

Definition jason_files : gmap string file_content :=
  <["denver-metro.json" := Document (Some [denver_kva_branch; jason_branch])]>
  (<["electrical/pueblo-south.json" := Document (Some [pueblo_wesco_branch])]> ∅).

(** Matching records without an [address1] field, in three cities. *)
Definition no_address_branch (c : string) : branch :=
  <["name" := "WESCO"]> (<["chain" := "WESCO"]> (<["city" := c]> ∅)).

Definition no_address_files (c : string) : gmap string file_content :=
  <["denver-metro.json" := Document (Some [no_address_branch c])]> ∅.

(** ** Vocabulary of the further properties *)

(** The fields of an entry that the checks read. *)
Definition core (e : matched_entry) : option string * option string
    * option string * option string :=
  (city e, address e, name e, chain e).

(** The lines the scan of the files can print: empty, a file heading, or an
    indented detail line. *)
Definition is_scan_line (l : string) : Prop :=
  l = "" ∨ String.prefix "📁 " l = true ∨ String.prefix "   " l = true.

(** The two closing banners of the report. *)
Definition is_banner_line (l : string) : bool :=
  String.prefix "✅ ALL" l || String.prefix "❌ SOME" l.

(** A data set whose second expected file is not valid JSON. *)
Definition malformed_files : gmap string file_content :=
  <["denver-metro.json" := Document (Some [other_branch; denver_kva_branch])]>
  (<["electrical/denver-metro.json" := Malformed]>
  (<["electrical/pueblo-south.json" := Document (Some [pueblo_wesco_branch])]> ∅)).

(** The Denver entry listed in the metro file and in the trade file. *)
Definition duplicated_files : gmap string file_content :=
  <["denver-metro.json" := Document (Some [denver_kva_branch])]>
  (<["electrical/denver-metro.json" := Document (Some [denver_kva_branch])]>
  (<["electrical/pueblo-south.json" := Document (Some [pueblo_wesco_branch])]> ∅)).

(** The lines that report on the checklist: a verdict, the summary heading
    or a closing banner. *)
Definition is_report_line (l : string) : bool :=
  String.prefix "❌ FAIL" l || String.prefix "✅ PASS" l
  || String.prefix "⚠️  WARNING" l || String.prefix "SUMMARY" l
  || is_banner_line l.

(** The two FAIL lines of the Denver check that name a single entry
    (source lines 133 and 136). *)
Definition is_single_entry_line (l : string) : bool :=
  String.prefix "❌ FAIL: Denver entry" l.

(** A line that is neither a closing banner nor one of those two. *)
Definition plain_line (l : string) : Prop :=
  is_banner_line l = false ∧ is_single_entry_line l = false.

(** The lines of the validation phase before the closing block. *)
Definition checklist_lines (es : list matched_entry)
    (u : gmap string matched_entry) : list string :=
  (check_unique u true).1 ++ (check_denver es true).1
  ++ (check_pueblo es true).1
  ++ [""; "Checking for removed entries..."]
  ++ (check_removed es "756 S Jason" true).1
  ++ (check_removed es "6883 E 47th" true).1
  ++ (check_removed es "133 Commerce" true).1.

(** The lines the scan prints for one matching record (lines 80-82). *)
Definition record_block (b : branch) : list string :=
  [ "   └─ " +:+ py_str (b !! "name");
    "      Chain: " +:+ py_str (b !! "chain");
    "      Address: " +:+ py_str (b !! "address1") +:+ ", "
      +:+ py_str (b !! "city") ].

(** The lines the scan prints for one expected file (lines 63-83): nothing
    for a file that is missing or holds no matching record. *)
Definition file_block (files : gmap string file_content) (filepath : string)
    : list string :=
  let branches := branches_at files filepath in
  match wesco_entries_of branches with
  | [] => []
  | wesco_entries =>
      [ "📁 " +:+ relative_to_updates filepath;
        "   Total branches: " +:+ pretty (length branches);
        "   WESCO/KVA entries: " +:+ pretty (length wesco_entries) ]
      ++ flat_map record_block wesco_entries ++ [""]
  end.

(** ** Data sets with a matching record that lacks [address1] *)

(** The two expected locations and a third matching record, in Boulder,
    without an address. *)
Definition cut_short_files : gmap string file_content :=
  <["denver-metro.json" := Document (Some [denver_kva_branch])]>
  (<["electrical/pueblo-south.json" := Document (Some [pueblo_wesco_branch])]>
  (<["electrical/boulder-broomfield-longmont.json" :=
       Document (Some [no_address_branch "Boulder"])]> ∅)).

(** Two inconsistent entries at the Denver address, the Pueblo entry, and a
    matching record in Boulder without an address. *)
Definition inconsistent_no_address_files : gmap string file_content :=
  <["denver-metro.json" := Document (Some [denver_kva_branch])]>
  (<["electrical/denver-metro.json" := Document (Some [denver_other_branch])]>
  (<["electrical/pueblo-south.json" := Document (Some [pueblo_wesco_branch])]>
  (<["electrical/boulder-broomfield-longmont.json" :=
       Document (Some [no_address_branch "Boulder"])]> ∅))).

(** The two expected locations and a second Pueblo record without an
    address. *)
Definition pueblo_no_address_files : gmap string file_content :=
  <["denver-metro.json" := Document (Some [denver_kva_branch])]>
  (<["electrical/pueblo-south.json" :=
       Document (Some [pueblo_wesco_branch; no_address_branch "Pueblo"])]> ∅).

(** The two expected locations, an entry at 756 S Jason St and a Denver
    record without an address. *)
Definition jason_no_address_files : gmap string file_content :=
  <["denver-metro.json" :=
      Document (Some [denver_kva_branch; jason_branch;
                      no_address_branch "Denver"])]>
  (<["electrical/pueblo-south.json" := Document (Some [pueblo_wesco_branch])]> ∅).

(** The first expected file missing, the second not valid JSON, and the
    Pueblo file in place. *)
Definition skip_then_malformed_files : gmap string file_content :=
  <["electrical/denver-metro.json" := Malformed]>
  (<["electrical/pueblo-south.json" := Document (Some [pueblo_wesco_branch])]> ∅).

(** * Properties *)

(** Closed decidable goals are settled by evaluation. *)
Ltac by_compute := refine (bool_decide_unpack _ _); vm_compute; exact I.

(** [print("=" * 80)]. *)
Lemma banner_length : String.length banner = 80.
Proof. reflexivity. Qed.

(** ** Substring containment *)

Lemma prefix_spec (n h : string) :
  String.prefix n h = true ↔ ∃ post, h = n +:+ post.
Proof.
  revert h. induction n as [|a n IH]; intros h.
  - split; [intros _; by exists h | by destruct h].
  - destruct h as [|b h]; simpl.
    + split; [done | intros [post H]; discriminate H].
    + destruct (Ascii.ascii_dec a b) as [->|Hne].
      * rewrite IH. split; intros [post H]; exists post.
        -- by rewrite H.
        -- by injection H.
      * split; [done | intros [post H]; injection H; congruence].
Qed.

Lemma str_in_unfold (n h : string) :
  str_in n h =
  if String.prefix n h then true
  else match h with
       | EmptyString => false
       | String _ h' => str_in n h'
       end.
Proof. by destruct h. Qed.

Lemma str_in_occurs (n h : string) : str_in n h = true ↔ occurs_in n h.
Proof.
  induction h as [|c h IH]; rewrite str_in_unfold.
  - destruct (String.prefix n "") eqn:E.
    + split; [intros _ | done].
      apply prefix_spec in E as [post E]. exists "", post. done.
    + split; [done | intros (pre & post & H)].
      destruct pre; [|discriminate H]. simpl in H.
      assert (String.prefix n "" = true) by (apply prefix_spec; eauto).
      congruence.
  - destruct (String.prefix n (String c h)) eqn:E.
    + split; [intros _ | done].
      apply prefix_spec in E as [post E]. exists "", post. done.
    + rewrite IH. split.
      * intros (pre & post & ->). by exists (String c pre), post.
      * intros (pre & post & H). destruct pre as [|c' pre]; simpl in H.
        -- assert (String.prefix n (String c h) = true)
             by (apply prefix_spec; eauto).
           congruence.
        -- injection H as _ ->. by exists pre, post.
Qed.

Lemma str_in_not_occurs (n h : string) : str_in n h = false ↔ ¬ occurs_in n h.
Proof. rewrite <-str_in_occurs. by destruct (str_in n h). Qed.

(** ** C3: the filter *)

(** C3. A branch record is in the match set of its file exactly when
    "WESCO" occurs in its chain or in its name, or "KVA" occurs in its name,
    an absent field counting as the empty string; containment compares
    characters exactly, so lower-case spellings do not match. *)
Theorem filter_membership :
  (∀ (branches : list branch) (b : branch),
     b ∈ wesco_entries_of branches ↔
     b ∈ branches ∧
     (occurs_in "WESCO" (default "" (b !! "chain"))
      ∨ occurs_in "WESCO" (default "" (b !! "name"))
      ∨ occurs_in "KVA" (default "" (b !! "name"))))
  ∧ is_wesco (<["chain" := "Wesco"]> (<["name" := "kva supply co"]> ∅)) = false.
Proof.
  split; [|reflexivity].
  intros branches b. unfold wesco_entries_of.
  rewrite !list_elem_of_In, filter_In. unfold is_wesco.
  rewrite !orb_true_iff, !str_in_occurs. tauto.
Qed.

(** ** C4: deduplication *)

Lemma dedup_step_lookup (m : gmap string matched_entry) e k :
  dedup_step m e !! k =
  match m !! k with
  | Some v => Some v
  | None => if decide (location_key e = k) then Some e else None
  end.
Proof.
  unfold dedup_step.
  destruct (m !! location_key e) as [v|] eqn:Hm.
  - destruct (m !! k) eqn:Hk; [done|].
    case_decide; [congruence | done].
  - rewrite lookup_insert. case_decide as Hd.
    + subst k. by rewrite Hm.
    + by destruct (m !! k).
Qed.

Lemma foldl_dedup_lookup (es : list matched_entry) m k :
  foldl dedup_step m es !! k =
  match m !! k with
  | Some v => Some v
  | None => head (filter (λ e, location_key e = k) es)
  end.
Proof.
  revert m. induction es as [|e es IH]; intros m; simpl.
  - by destruct (m !! k).
  - rewrite IH, dedup_step_lookup.
    destruct (m !! k); [done|].
    rewrite filter_cons. by case_decide.
Qed.

Lemma foldl_dedup_dom (es : list matched_entry) (m : gmap string matched_entry) :
  dom (foldl dedup_step m es) = dom m ∪ list_to_set (location_key <$> es).
Proof.
  revert m. induction es as [|e es IH]; intros m; simpl.
  - set_solver.
  - rewrite IH. unfold dedup_step.
    destruct (m !! location_key e) eqn:Hm.
    + apply (elem_of_dom_2 m) in Hm. set_solver.
    + rewrite dom_insert_L. set_solver.
Qed.

Lemma size_list_to_set_remove_dups (l : list string) :
  size (list_to_set l : gset string) = length (remove_dups l).
Proof.
  rewrite <-(size_list_to_set (C:=gset string) (remove_dups l))
    by apply NoDup_remove_dups.
  f_equal. apply set_eq. intros x.
  by rewrite !elem_of_list_to_set, elem_of_remove_dups.
Qed.

Lemma dedup_size (es : list matched_entry) :
  size (dedup es) = length (remove_dups (location_key <$> es)).
Proof.
  unfold dedup. rewrite <-size_dom, foldl_dedup_dom, dom_empty_L.
  rewrite (left_id_L ∅ (∪)). apply size_list_to_set_remove_dups.
Qed.

(** C4. The location key is the city, a dash and the address.  The
    deduplicated map sends every key to the first entry of the aggregate
    that bears it; appending an entry whose key was already seen changes
    nothing (otherwise the entry is stored under its key); and the number
    of unique locations is the number of distinct keys. *)
Theorem dedup_first_wins (es : list matched_entry) :
  (∀ f n ch c a p v o,
     location_key (MatchedEntry f n ch (Some c) (Some a) p v o)
     = c +:+ "-" +:+ a)
  ∧ (∀ k, dedup es !! k = head (filter (λ e, location_key e = k) es))
  ∧ (∀ e', dedup (es ++ [e']) =
           if decide (location_key e' ∈ location_key <$> es)
           then dedup es
           else <[location_key e' := e']> (dedup es))
  ∧ size (dedup es) = length (remove_dups (location_key <$> es)).
Proof.
  split; [done|]. split; [|split].
  - intros k. unfold dedup. by rewrite foldl_dedup_lookup, lookup_empty.
  - intros e'. unfold dedup at 1. rewrite foldl_snoc. fold (dedup es).
    unfold dedup_step.
    assert (is_Some (dedup es !! location_key e')
            ↔ location_key e' ∈ location_key <$> es) as Hseen.
    { rewrite <-elem_of_dom. unfold dedup.
      rewrite foldl_dedup_dom, dom_empty_L, elem_of_union, elem_of_list_to_set.
      set_solver. }
    case_decide as Hin.
    + apply Hseen in Hin as [v ->]. done.
    + destruct (dedup es !! location_key e') eqn:E; [|done].
      exfalso. apply Hin, Hseen. eauto.
  - apply dedup_size.
Qed.

(** ** Runs *)

Lemma bind_Return {A B} (o : list string) (a : A) (k : A → M B) :
  bind (o, Return a) k = (o ++ (k a).1, (k a).2).
Proof. unfold bind. by destruct (k a). Qed.

Lemma bind_Raise {A B} (o : list string) (e : exn) (k : A → M B) :
  bind (o, Raise e) k = (o, Raise e).
Proof. done. Qed.

Lemma bind_print {B} (line : string) (k : unit → M B) :
  bind (print line) k = (line :: (k tt).1, (k tt).2).
Proof. unfold print. by rewrite bind_Return. Qed.

Lemma bind_lift_Return {A B} (a : A) (k : A → M B) :
  bind (lift (Return a)) k = k a.
Proof. unfold lift. rewrite bind_Return. by destruct (k a). Qed.

Lemma comprehension_filter {A} (cond : A → result bool) (p : A → bool) l :
  Forall (λ x, cond x = Return (p x)) l →
  comprehension cond l = Return (List.filter p l).
Proof.
  induction 1 as [|x l Hx _ IH]; simpl; [done|].
  rewrite Hx, IH. by destruct (p x).
Qed.

Lemma comprehension_raise {A} (cond : A → result bool) e l :
  Exists (λ x, cond x = Raise e) l →
  (∀ x e', cond x = Raise e' → e' = e) →
  comprehension cond l = Raise e.
Proof.
  intros Hex Honly. induction Hex as [x l Hx|x l _ IH]; simpl.
  - by rewrite Hx.
  - destruct (cond x) as [b|e'] eqn:Hx.
    + by rewrite IH.
    + by rewrite (Honly _ _ Hx).
Qed.

(** ** Checklist vocabulary against the code's conditions *)

Lemma address_hasb_spec n e : address_hasb n e = true ↔ address_has n e.
Proof.
  unfold address_hasb, address_has. destruct (address e) as [a|].
  - rewrite str_in_occurs. split; [eauto|]. by intros (a' & [= <-] & ?).
  - split; [done|]. by intros (a' & ? & ?).
Qed.

Lemma py_eq_spec v s : py_eq v s = true ↔ v = Some s.
Proof. unfold py_eq. by rewrite bool_decide_eq_true. Qed.

Lemma locatedb_spec c n e : locatedb c n e = true ↔ located c n e.
Proof.
  unfold locatedb, located.
  by rewrite andb_true_iff, py_eq_spec, address_hasb_spec.
Qed.

Global Instance address_has_dec n e : Decision (address_has n e).
Proof.
  refine (cast_if (decide (address_hasb n e = true)));
    by rewrite <-address_hasb_spec.
Defined.

Global Instance located_dec c n e : Decision (located c n e).
Proof.
  refine (cast_if (decide (locatedb c n e = true)));
    by rewrite <-locatedb_spec.
Defined.

Lemma filter_reflect {A} (P : A → Prop) `{!∀ x, Decision (P x)}
    (p : A → bool) (l : list A) :
  (∀ x, p x = true ↔ P x) → filter P l = List.filter p l.
Proof.
  intros Hp. induction l as [|x l IH]; [done|].
  rewrite filter_cons. simpl. rewrite IH.
  destruct (p x) eqn:E; case_decide as HP; try done.
  - apply Hp in E. done.
  - apply Hp in HP. congruence.
Qed.

Lemma is_denver_kva_pure e :
  has_address e → is_denver_kva e = Return (locatedb "Denver" "11198 E 45th" e).
Proof.
  intros [a Ha]. unfold is_denver_kva, locatedb, address_hasb, py_and, py_in.
  rewrite Ha. by destruct (py_eq (city e) "Denver").
Qed.

Lemma is_pueblo_wesco_pure e :
  has_address e → is_pueblo_wesco e = Return (locatedb "Pueblo" "115 S Main" e).
Proof.
  intros [a Ha]. unfold is_pueblo_wesco, locatedb, address_hasb, py_and, py_in.
  rewrite Ha. by destruct (py_eq (city e) "Pueblo").
Qed.

Lemma py_in_address_pure addr e :
  has_address e → py_in addr (address e) = Return (address_hasb addr e).
Proof. intros [a Ha]. unfold address_hasb, py_in. by rewrite Ha. Qed.

(** ** Runs that return *)

(** The unique-location check passes exactly on two locations. *)
Lemma check_unique_passes u :
  passes (check_unique u true) = bool_decide (size u = 2).
Proof.
  unfold check_unique, passes.
  case_decide; case_bool_decide; done.
Qed.

Lemma check_unique_frame u s :
  check_unique u s
  = ((check_unique u true).1, Return (s && passes (check_unique u true))).
Proof.
  unfold check_unique, passes. case_decide; by destruct s.
Qed.

Lemma check_unique_reported u :
  verdict_reported (check_unique u true).1 (passes (check_unique u true)).
Proof.
  unfold check_unique, passes, verdict_reported.
  case_decide; eexists _, _; (split; [reflexivity|]); [|left]; reflexivity.
Qed.

Lemma bind_eq {A B} (m : M A) (o : list string) (a : A) (k : A → M B) :
  m = (o, Return a) → bind m k = (o ++ (k a).1, (k a).2).
Proof. intros ->. apply bind_Return. Qed.

Lemma final_report_returns s :
  final_report s = ((final_report s).1, Return tt).
Proof. by destruct s. Qed.

(** ** The checks, one by one *)

(** The checks below are studied on an aggregate whose entries all carry an
    address: the three comprehensions of the validation phase then return,
    and are the filters the checklist speaks of. *)
Section addressed.

Context (es : list matched_entry) (Hes : Forall has_address es).

Lemma denver_kva_list :
  comprehension is_denver_kva es
  = Return (filter (located "Denver" "11198 E 45th") es).
Proof.
  rewrite (filter_reflect _ (locatedb "Denver" "11198 E 45th"))
    by apply locatedb_spec.
  apply comprehension_filter.
  eapply Forall_impl; [exact Hes|]. apply is_denver_kva_pure.
Qed.

Lemma pueblo_wesco_list :
  comprehension is_pueblo_wesco es
  = Return (filter (located "Pueblo" "115 S Main") es).
Proof.
  rewrite (filter_reflect _ (locatedb "Pueblo" "115 S Main"))
    by apply locatedb_spec.
  apply comprehension_filter.
  eapply Forall_impl; [exact Hes|]. apply is_pueblo_wesco_pure.
Qed.

Lemma found_list addr :
  comprehension (λ e, py_in addr (address e)) es
  = Return (filter (address_has addr) es).
Proof.
  rewrite (filter_reflect _ (address_hasb addr))
    by apply address_hasb_spec.
  apply comprehension_filter.
  eapply Forall_impl; [exact Hes|]. intros e. apply py_in_address_pure.
Qed.

Lemma check_denver_cases s :
  let dk := filter (located "Denver" "11198 E 45th") es in
  match dk with
  | [] =>
      check_denver es s
      = (["❌ FAIL: Expected at least 1 Denver KVA Supply Co entry, found 0"],
         Return false)
  | entry :: _ =>
      if forallb consistent dk then
        if py_eq (operating_name entry) "KVA Supply Co" then
          check_denver es s
          = ("✅ PASS: Denver KVA Supply Co entry correctly configured"
             :: ("   Name: " +:+ py_str (name entry))
             :: ("   Chain: " +:+ py_str (chain entry))
             :: ("   Operating Name: " +:+ py_str (operating_name entry))
             :: ("   Phone: " +:+ py_str (phone entry))
             :: (if decide (1 < length dk)
                 then ["   (Appears in " +:+ pretty (length dk)
                       +:+ " files - metro + trade)"]
                 else []),
             Return s)
        else
          check_denver es s
          = (["⚠️  WARNING: Denver entry missing 'operatingName' field"],
             Return s)
      else
        check_denver es s
        = (["❌ FAIL: Denver KVA Supply Co entries are inconsistent"],
           Return false)
  end.
Proof.
  intros dk. unfold check_denver.
  rewrite denver_kva_list. rewrite bind_lift_Return. fold dk.
  destruct dk as [|entry dk']; [done|].
  destruct (forallb consistent (entry :: dk')) eqn:Hall; [|done].
  assert (consistent entry = true) as Hc.
  { simpl in Hall. by apply andb_true_iff in Hall as [? _]. }
  apply andb_true_iff in Hc as [Hn Hch].
  cbn [negb]. rewrite Hn, Hch. cbn [negb].
  destruct (py_eq (operating_name entry) "KVA Supply Co"); cbn [negb]; [|done].
  by destruct (decide (1 < length (entry :: dk'))).
Qed.

Lemma check_denver_passes :
  passes (check_denver es true)
  = denver_verdict (filter (located "Denver" "11198 E 45th") es).
Proof.
  pose proof (check_denver_cases true) as H.
  cbv zeta in H. unfold passes, denver_verdict.
  destruct (filter _ es) as [|entry dk'].
  - by rewrite H.
  - destruct (forallb consistent (entry :: dk')).
    + destruct (py_eq (operating_name entry) _).
      * by rewrite H.
      * by rewrite H.
    + by rewrite H.
Qed.

Lemma check_denver_frame s :
  check_denver es s
  = ((check_denver es true).1, Return (s && passes (check_denver es true))).
Proof.
  unfold passes.
  pose proof (check_denver_cases true) as Ht.
  pose proof (check_denver_cases s) as Hs.
  cbv zeta in Ht, Hs.
  destruct (filter _ es) as [|entry dk'].
  - rewrite Ht, Hs. by destruct s.
  - destruct (forallb consistent (entry :: dk')).
    + destruct (py_eq (operating_name entry) _).
      * rewrite Ht, Hs. by destruct s.
      * rewrite Ht, Hs. by destruct s.
    + rewrite Ht, Hs. by destruct s.
Qed.

Lemma check_denver_reported :
  verdict_reported (check_denver es true).1 (passes (check_denver es true)).
Proof.
  unfold passes, verdict_reported.
  pose proof (check_denver_cases true) as H. cbv zeta in H.
  destruct (filter _ es) as [|entry dk'].
  - rewrite H. eexists _, _. split; reflexivity.
  - destruct (forallb consistent (entry :: dk')).
    + destruct (py_eq (operating_name entry) _).
      * rewrite H. eexists _, _. split; [reflexivity|by left].
      * rewrite H. eexists _, _. split; [reflexivity|by right].
    + rewrite H. eexists _, _. split; reflexivity.
Qed.

Lemma check_pueblo_cases s :
  let pw := filter (located "Pueblo" "115 S Main") es in
  match pw with
  | [entry] =>
      if py_eq (chain entry) "WESCO" then
        check_pueblo es s
        = (["✅ PASS: Pueblo WESCO entry correctly retained";
            "   Name: " +:+ py_str (name entry);
            "   Phone: " +:+ py_str (phone entry)],
           Return s)
      else
        check_pueblo es s
        = (["❌ FAIL: Pueblo entry chain is '" +:+ py_str (chain entry)
            +:+ "', expected 'WESCO'"],
           Return false)
  | _ =>
      check_pueblo es s
      = (["❌ FAIL: Expected 1 Pueblo WESCO entry, found " +:+ pretty (length pw)],
         Return false)
  end.
Proof.
  intros pw. unfold check_pueblo.
  rewrite pueblo_wesco_list. rewrite bind_lift_Return. fold pw.
  destruct pw as [|entry [|entry2 pw']]; [done| |done].
  by destruct (py_eq (chain entry) "WESCO").
Qed.

Lemma check_pueblo_passes :
  passes (check_pueblo es true)
  = pueblo_verdict (filter (located "Pueblo" "115 S Main") es).
Proof.
  pose proof (check_pueblo_cases true) as H.
  cbv zeta in H. unfold passes, pueblo_verdict.
  destruct (filter _ es) as [|entry [|entry2 pw']]; [by rewrite H| |by rewrite H].
  destruct (py_eq (chain entry) _); by rewrite H.
Qed.

Lemma check_pueblo_frame s :
  check_pueblo es s
  = ((check_pueblo es true).1, Return (s && passes (check_pueblo es true))).
Proof.
  unfold passes.
  pose proof (check_pueblo_cases true) as Ht.
  pose proof (check_pueblo_cases s) as Hs.
  cbv zeta in Ht, Hs.
  destruct (filter _ es) as [|entry [|entry2 pw']];
    [| destruct (py_eq (chain entry) _) |];
    rewrite Ht, Hs; by destruct s.
Qed.

Lemma check_pueblo_reported :
  verdict_reported (check_pueblo es true).1 (passes (check_pueblo es true)).
Proof.
  unfold passes, verdict_reported.
  pose proof (check_pueblo_cases true) as H. cbv zeta in H.
  destruct (filter _ es) as [|entry [|entry2 pw']];
    [| destruct (py_eq (chain entry) _) |];
    rewrite H; eexists _, _; (split; [reflexivity|]);
    first [reflexivity | by left].
Qed.

Lemma check_removed_cases addr s :
  match filter (address_has addr) es with
  | [] =>
      check_removed es addr s
      = (["✅ PASS: Confirmed removed: " +:+ addr], Return s)
  | _ :: _ =>
      check_removed es addr s
      = (["❌ FAIL: Found entry that should have been removed: " +:+ addr],
         Return false)
  end.
Proof.
  unfold check_removed.
  rewrite found_list. rewrite bind_lift_Return.
  by destruct (filter _ es).
Qed.

Lemma check_removed_passes addr :
  passes (check_removed es addr true)
  = bool_decide (filter (address_has addr) es = []).
Proof.
  pose proof (check_removed_cases addr true) as H.
  unfold passes. destruct (filter _ es); by rewrite H.
Qed.

Lemma check_removed_frame addr s :
  check_removed es addr s
  = ((check_removed es addr true).1,
     Return (s && passes (check_removed es addr true))).
Proof.
  unfold passes.
  pose proof (check_removed_cases addr true) as Ht.
  pose proof (check_removed_cases addr s) as Hs.
  destruct (filter _ es); rewrite Ht, Hs; by destruct s.
Qed.

Lemma check_removed_reported addr :
  verdict_reported (check_removed es addr true).1
                   (passes (check_removed es addr true)).
Proof.
  unfold passes, verdict_reported.
  pose proof (check_removed_cases addr true) as H.
  destruct (filter _ es); rewrite H; eexists _, _;
    (split; [reflexivity|]); first [reflexivity | by left].
Qed.

Lemma validate_spec u :
  let b := forallb (λ it : bool → M bool, passes (it true)) (items es u) in
  validate es u
  = ((check_unique u true).1 ++ (check_denver es true).1
     ++ (check_pueblo es true).1
     ++ [""; "Checking for removed entries..."]
     ++ (check_removed es "756 S Jason" true).1
     ++ (check_removed es "6883 E 47th" true).1
     ++ (check_removed es "133 Commerce" true).1
     ++ (final_report b).1,
     Return b).
Proof.
  intros b. unfold validate.
  rewrite (bind_eq _ _ _ _ (check_unique_frame u true)).
  rewrite (bind_eq _ _ _ _ (check_denver_frame _)).
  rewrite (bind_eq _ _ _ _ (check_pueblo_frame _)).
  rewrite !bind_print.
  unfold invalid_addresses. cbn [check_all_removed].
  rewrite (bind_eq _ _ _ _ (check_removed_frame _ _)).
  rewrite (bind_eq _ _ _ _ (check_removed_frame _ _)).
  rewrite (bind_eq _ _ _ _ (check_removed_frame _ _)).
  assert (true && passes (check_unique u true) && passes (check_denver es true)
          && passes (check_pueblo es true)
          && passes (check_removed es "756 S Jason" true)
          && passes (check_removed es "6883 E 47th" true)
          && passes (check_removed es "133 Commerce" true) = b) as ->.
  { unfold b, items. cbn [forallb].
    rewrite andb_true_r, andb_true_l, !andb_assoc. done. }
  cbn [ret fst snd]. rewrite app_nil_r.
  rewrite bind_Return. cbn [fst snd].
  rewrite (bind_eq _ _ _ _ (final_report_returns b)).
  cbn [ret fst snd]. rewrite app_nil_r.
  cbn [app]. by rewrite <-!app_assoc.
Qed.

Lemma validate_result u :
  (validate es u).2
  = Return (forallb (λ it : bool → M bool, passes (it true)) (items es u)).
Proof. by rewrite validate_spec. Qed.

(** An item that does not pass makes the whole validation return [False]. *)
Lemma validate_false u (it : bool → M bool) :
  it ∈ items es u → passes (it true) = false →
  (validate es u).2 = Return false.
Proof.
  intros Hin Hit. rewrite validate_result. f_equal.
  apply not_true_is_false. intros Hall.
  rewrite forallb_forall in Hall.
  apply list_elem_of_In, Hall in Hin. congruence.
Qed.

End addressed.

(** ** The whole script *)

Lemma summary_returns es n u : summary es n u = ((summary es n u).1, Return tt).
Proof. done. Qed.

Lemma verify_paths_spec paths files o es n :
  scan_files files paths ([], 0) = (o, Return (es, n)) →
  verify_paths paths (BaseDir files)
  = (header ++ o ++ (summary es n (dedup es)).1 ++ (validate es (dedup es)).1,
     (validate es (dedup es)).2).
Proof.
  intros Hscan. unfold verify_paths. rewrite !bind_print.
  rewrite (bind_eq _ _ _ _ Hscan). cbn [fst snd].
  rewrite (bind_eq _ _ _ _ (summary_returns _ _ _)). done.
Qed.

Lemma verify_spec files o es n :
  scan_files files files_to_check ([], 0) = (o, Return (es, n)) →
  verify_wesco_cleanup (BaseDir files)
  = (header ++ o ++ (summary es n (dedup es)).1 ++ (validate es (dedup es)).1,
     (validate es (dedup es)).2).
Proof. apply verify_paths_spec. Qed.

Lemma exit_status_spec fs :
  exit_status fs
  = if decide ((verify_wesco_cleanup fs).2 = Return true) then 0 else 1.
Proof.
  unfold exit_status.
  destruct (verify_wesco_cleanup fs).2 as [[]|]; by case_decide.
Qed.

(** ** Scanning the files *)

Lemma bind_ret_l {A B} (a : A) (k : A → M B) : bind (ret a) k = k a.
Proof. unfold ret. rewrite bind_Return. by destruct (k a). Qed.

Lemma bind_ext {A B} (m : M A) (k k' : A → M B) :
  (∀ a, k a = k' a) → bind m k = bind m k'.
Proof. intros H. destruct m as [o [a|e]]; [|done]. unfold bind. by rewrite H. Qed.

Lemma record_entries_result filepath bs acc :
  ∃ o, record_entries filepath bs acc
       = (o, Return (acc ++ (make_entry filepath <$> bs))).
Proof.
  revert acc. induction bs as [|b bs IH]; intros acc; cbn [record_entries].
  - exists []. unfold ret. simpl. by rewrite app_nil_r.
  - destruct (IH (acc ++ [make_entry filepath b])) as [o Ho].
    rewrite !bind_print, Ho. cbn [fst snd].
    eexists. by rewrite <-app_assoc.
Qed.

Lemma scan_file_result files es n filepath :
  files !! filepath ≠ Some Malformed →
  ∃ o, scan_file files (es, n) filepath
       = (o, Return (es ++ (make_entry filepath
                              <$> wesco_entries_of (branches_at files filepath)),
                     n + length (branches_at files filepath))).
Proof.
  intros Hok. unfold scan_file, branches_at.
  destruct (files !! filepath) as [[|data]|]; [done| |].
  - destruct (wesco_entries_of (default [] data)) as [|b bs] eqn:Hw.
    + exists []. unfold ret. by rewrite app_nil_r.
    + destruct (record_entries_result filepath (b :: bs) es) as [o Ho].
      rewrite !bind_print, (bind_eq _ _ _ _ Ho), bind_print.
      cbn [fst snd ret]. eauto.
  - exists []. unfold ret. simpl. by rewrite app_nil_r, Nat.add_0_r.
Qed.

(** When every present file parses, the scan returns the aggregate: the
    matching records of each file in the order of the file list, and inside
    a file in the order of its [branches] array. *)
Lemma scan_files_result files paths es n :
  Forall (λ p, files !! p ≠ Some Malformed) paths →
  ∃ o, scan_files files paths (es, n)
       = (o, Return (es ++ aggregate files paths, n + total_scanned files paths)).
Proof.
  intros Hok. revert es n. induction Hok as [|p paths Hp _ IH]; intros es n.
  - exists []. simpl. unfold ret, aggregate, total_scanned. simpl.
    by rewrite app_nil_r, Nat.add_0_r.
  - destruct (scan_file_result files es n p Hp) as [o1 H1].
    destruct (IH (es ++ (make_entry p <$> wesco_entries_of (branches_at files p)))
                 (n + length (branches_at files p))) as [o2 H2].
    simpl. rewrite (bind_eq _ _ _ _ H1), H2. cbn [fst snd].
    eexists. unfold aggregate, total_scanned. simpl.
    by rewrite <-app_assoc, Nat.add_assoc.
Qed.

Lemma matched_entries_aggregate files :
  Forall (λ p, files !! p ≠ Some Malformed) files_to_check →
  matched_entries files = Return (aggregate files files_to_check).
Proof.
  intros Hok. unfold matched_entries.
  destruct (scan_files_result files files_to_check [] 0 Hok) as [o ->].
  done.
Qed.

Lemma scan_files_present files paths acc :
  scan_files files paths acc
  = scan_files files (filter (λ p, is_Some (files !! p)) paths) acc.
Proof.
  revert acc. induction paths as [|p paths IH]; intros acc; [done|].
  rewrite filter_cons. case_decide as Hp; simpl.
  - by apply bind_ext.
  - unfold scan_file. destruct acc as [es n].
    destruct (files !! p) eqn:E; [exfalso; eauto|].
    by rewrite bind_ret_l.
Qed.

(** ** The run over the files that exist *)

(** With the base directory in place, the run is the run over the expected
    files that exist. *)
Lemma verify_present_paths (files : gmap string file_content) :
  verify_wesco_cleanup (BaseDir files)
  = verify_paths (filter (λ p, is_Some (files !! p)) files_to_check)
                 (BaseDir files).
Proof.
  unfold verify_wesco_cleanup, verify_paths.
  by rewrite scan_files_present.
Qed.

Lemma scan_files_absent files paths acc :
  Forall (λ p, files !! p = None) paths → scan_files files paths acc = ret acc.
Proof.
  intros H. rewrite scan_files_present.
  replace (filter _ paths) with (@nil string); [done|].
  induction H as [|p paths Hp _ IH]; [done|].
  rewrite filter_cons_False; [done|]. rewrite Hp. by intros [??].
Qed.

(** The script's result and console once the scan has left [es]. *)
Lemma verify_result files es :
  matched_entries files = Return es →
  (verify_wesco_cleanup (BaseDir files)).2 = (validate es (dedup es)).2
  ∧ ∃ pre, (verify_wesco_cleanup (BaseDir files)).1
           = pre ++ (validate es (dedup es)).1.
Proof.
  unfold matched_entries. intros H.
  destruct (scan_files files files_to_check ([], 0)) as [o [[es' n]|e]] eqn:Hs;
    [|done].
  injection H as ->. rewrite (verify_spec _ _ _ _ Hs). split; [done|].
  exists (header ++ o ++ (summary es n (dedup es)).1).
  cbn [fst]. by rewrite <-!app_assoc.
Qed.

(** ** C5: environment errors *)

(** C5, as stated, fails: in the sample data set four of the six expected
    files are missing, among them [electrical/denver-metro.json], yet the
    run prints no fatal message, runs the checks and succeeds with exit
    status 0; and with the base directory in place and no file at all the
    console carries no environment error. *)
Lemma missing_file_is_not_fatal :
  "electrical/denver-metro.json" ∈ files_to_check
  ∧ sample_files !! "electrical/denver-metro.json" = None
  ∧ (verify_wesco_cleanup (BaseDir sample_files)).2 = Return true
  ∧ exit_status (BaseDir sample_files) = 0
  ∧ ("❌ Error: supplyfind-updates directory not found"
       ∉ (verify_wesco_cleanup (BaseDir sample_files)).1)
  ∧ ("✅ PASS: Pueblo WESCO entry correctly retained"
       ∈ (verify_wesco_cleanup (BaseDir sample_files)).1)
  ∧ ("❌ Error: supplyfind-updates directory not found"
       ∉ (verify_wesco_cleanup (BaseDir ∅)).1).
Proof.
  split; [by_compute|]. split; [by vm_compute|]. split; [by vm_compute|].
  split; [by vm_compute|]. split; [by_compute|]. split; by_compute.
Qed.

(** C5, amended. Without the base directory the run prints the two lines of
    the fatal message and returns [False] (exit status 1): nothing is
    scanned and no check runs.  With the base directory in place and none
    of the expected files present, no environment error is reported: the
    checks run on the empty aggregate, three of them fail, and the run
    returns [False] (exit status 1) without claiming success. *)
Theorem environment_errors (files : gmap string file_content) :
  Forall (λ p, files !! p = None) files_to_check →
  verify_wesco_cleanup NoBaseDir
  = (["❌ Error: supplyfind-updates directory not found";
      "   Make sure you're running this from the Price-Cal repository root"],
     Return false)
  ∧ exit_status NoBaseDir = 1
  ∧ verify_wesco_cleanup (BaseDir files) = (no_files_console, Return false)
  ∧ exit_status (BaseDir files) = 1
  ∧ ("✅ ALL CHECKS PASSED" ∉ no_files_console)
  ∧ ("❌ Error: supplyfind-updates directory not found" ∉ no_files_console).
Proof.
  intros Habs.
  assert (verify_wesco_cleanup (BaseDir files) = (no_files_console, Return false))
    as Hrun.
  { unfold verify_wesco_cleanup, verify_paths.
    rewrite (scan_files_absent _ _ _ Habs). by vm_compute. }
  split; [done|]. split; [done|]. split; [done|].
  split; [unfold exit_status; by rewrite Hrun|].
  split; by_compute.
Qed.

Lemma environment_errors_witness :
  Forall (λ p, (∅ : gmap string file_content) !! p = None) files_to_check
  ∧ verify_wesco_cleanup (BaseDir ∅) = (no_files_console, Return false).
Proof.
  assert (Forall (λ p, (∅ : gmap string file_content) !! p = None) files_to_check)
    as H by (apply Forall_forall; intros p _; apply lookup_empty).
  split; [exact H|].
  exact (proj1 (proj2 (proj2 (environment_errors ∅ H)))).
Defined.

(** ** C1: the expected data set *)

(** C1, as stated, fails: a data set holding the expected Denver entry, the
    expected Pueblo entry and a third matching entry in Boulder, none of
    them at a removed address, has three unique locations; the first check
    fails and the run returns [False] with exit status 1. *)
Lemma third_location_fails :
  ∃ es, matched_entries three_location_files = Return es
    ∧ length (filter expected_denver es) = 1
    ∧ length (filter expected_pueblo es) = 1
    ∧ Forall not_forbidden es
    ∧ (verify_wesco_cleanup (BaseDir three_location_files)).2 = Return false
    ∧ exit_status (BaseDir three_location_files) = 1.
Proof.
  eexists. split; [by vm_compute|].
  split; [by vm_compute|]. split; [by vm_compute|].
  split; [by_compute|]. split; by vm_compute.
Qed.

Lemma expected_pair es :
  length es = 2 →
  length (filter expected_denver es) = 1 →
  length (filter expected_pueblo es) = 1 →
  ∃ d p, expected_denver d ∧ expected_pueblo p ∧ (es = [d; p] ∨ es = [p; d]).
Proof.
  intros Hlen Hd Hp.
  destruct es as [|e1 [|e2 [|]]]; try done.
  rewrite !filter_cons, filter_nil in Hd, Hp.
  destruct (decide (expected_denver e1)) as [D1|D1];
    destruct (decide (expected_denver e2)) as [D2|D2]; try done;
    destruct (decide (expected_pueblo e1)) as [P1|P1];
    destruct (decide (expected_pueblo e2)) as [P2|P2]; try done.
  - destruct D1 as [? _], P1 as [? _]. congruence.
  - exists e1, e2. eauto.
  - exists e2, e1. eauto.
  - destruct D2 as [? _], P2 as [? _]. congruence.
Qed.

(** C1, amended. When the expected files load and their matching entries
    are two in all, one the Denver entry named KVA Supply Co of chain WESCO
    at 11198 E 45th Ave and one the Pueblo entry named WESCO of chain WESCO
    at 115 S Main St, none at a removed address, the function returns
    [True] and the exit status is 0. *)
Theorem expected_dataset_passes (files : gmap string file_content)
    (es : list matched_entry) :
  matched_entries files = Return es →
  length (filter expected_denver es) = 1 →
  length (filter expected_pueblo es) = 1 →
  Forall not_forbidden es →
  length es = 2 →
  (verify_wesco_cleanup (BaseDir files)).2 = Return true
  ∧ exit_status (BaseDir files) = 0.
Proof.
  intros Hes Hd Hp _ Hlen.
  assert ((verify_wesco_cleanup (BaseDir files)).2 = Return true) as Hrun.
  { destruct (verify_result files es Hes) as [-> _].
    destruct (expected_pair es Hlen Hd Hp) as (d & p & Hed & Hep & Hor).
    destruct d as [f1 n1 c1 ci1 a1 p1 v1 o1], p as [f2 n2 c2 ci2 a2 p2 v2 o2].
    destruct Hed as (? & ? & ? & ?), Hep as (? & ? & ? & ?). simplify_eq/=.
    destruct Hor as [-> | ->].
    - rewrite validate_result by (repeat constructor; by eexists).
      unfold items. cbn [forallb].
      rewrite check_unique_passes, check_denver_passes, check_pueblo_passes,
        !check_removed_passes by (repeat constructor; by eexists).
      by vm_compute.
    - rewrite validate_result by (repeat constructor; by eexists).
      unfold items. cbn [forallb].
      rewrite check_unique_passes, check_denver_passes, check_pueblo_passes,
        !check_removed_passes by (repeat constructor; by eexists).
      by vm_compute. }
  split; [done|]. unfold exit_status. by rewrite Hrun.
Qed.

Lemma expected_dataset_passes_witness :
  let es := aggregate sample_files files_to_check in
  matched_entries sample_files = Return es
  ∧ length (filter expected_denver es) = 1
  ∧ length (filter expected_pueblo es) = 1
  ∧ Forall not_forbidden es
  ∧ length es = 2
  ∧ (verify_wesco_cleanup (BaseDir sample_files)).2 = Return true
  ∧ exit_status (BaseDir sample_files) = 0.
Proof.
  assert (matched_entries sample_files
          = Return (aggregate sample_files files_to_check)) as H1
    by (vm_compute; reflexivity).
  assert (length (filter expected_denver (aggregate sample_files files_to_check))
          = 1) as H2 by (vm_compute; reflexivity).
  assert (length (filter expected_pueblo (aggregate sample_files files_to_check))
          = 1) as H3 by (vm_compute; reflexivity).
  assert (Forall not_forbidden (aggregate sample_files files_to_check)) as H4
    by by_compute.
  assert (length (aggregate sample_files files_to_check) = 2) as H5
    by (vm_compute; reflexivity).
  repeat (split; [assumption|]).
  exact (expected_dataset_passes sample_files _ H1 H2 H3 H4 H5).
Defined.

(** ** Runs that abort *)

Lemma comprehension_exn {A} (cond : A → result bool) (l : list A) x :
  (∀ a y, cond a = Raise y → y = TypeError) →
  comprehension cond l = Raise x → x = TypeError.
Proof.
  intros Hcond. induction l as [|a l IH]; simpl; [done|].
  destruct (cond a) as [b|y] eqn:Ha.
  - destruct (comprehension cond l); [done|]. intros [= <-]. by apply IH.
  - intros [= <-]. by eapply Hcond.
Qed.

Lemma located_cond_exn c n e y :
  py_and (py_eq (city e) c) (py_in n (address e)) = Raise y → y = TypeError.
Proof.
  unfold py_and, py_in.
  destruct (py_eq (city e) c); [|done].
  destruct (address e); [done|]. by intros [= <-].
Qed.

Lemma check_denver_exn es s o x :
  check_denver es s = (o, Raise x) → x = TypeError.
Proof.
  unfold check_denver.
  destruct (comprehension is_denver_kva es) as [dk|y] eqn:E.
  - rewrite bind_lift_Return. destruct dk as [|entry dk']; [done|].
    repeat (match goal with |- context [if ?b then _ else _] => destruct b end;
            try done).
  - unfold lift. rewrite bind_Raise. intros [= _ <-].
    eapply comprehension_exn; [|exact E]. intros a. apply located_cond_exn.
Qed.

Lemma check_pueblo_exn es s o x :
  check_pueblo es s = (o, Raise x) → x = TypeError.
Proof.
  unfold check_pueblo.
  destruct (comprehension is_pueblo_wesco es) as [pw|y] eqn:E.
  - rewrite bind_lift_Return. destruct pw as [|entry [|entry2 pw']]; [done| |done].
    by destruct (negb _).
  - unfold lift. rewrite bind_Raise. intros [= _ <-].
    eapply comprehension_exn; [|exact E]. intros a. apply located_cond_exn.
Qed.

Lemma check_removed_raises es addr s :
  Exists (λ e, address e = None) es →
  check_removed es addr s = ([], Raise TypeError).
Proof.
  intros Hex. unfold check_removed.
  rewrite (comprehension_raise _ TypeError); [done| |].
  - eapply Exists_impl; [exact Hex|]. intros e He. simpl. by rewrite He.
  - intros e y. unfold py_in. destruct (address e); [done|]. by intros [= <-].
Qed.

(** Whatever the other fields hold, one matching entry without an address
    makes the validation phase end in a TypeError. *)
Lemma validate_raises es u :
  Exists (λ e, address e = None) es →
  (validate es u).2 = Raise TypeError.
Proof.
  intros Hex. unfold validate.
  rewrite (bind_eq _ _ _ _ (check_unique_frame u true)). cbn [snd].
  destruct (check_denver es _) as [o2 [s2|x2]] eqn:E2.
  - rewrite bind_Return. cbn [snd].
    destruct (check_pueblo es s2) as [o3 [s3|x3]] eqn:E3.
    + rewrite bind_Return, !bind_print. cbn [snd].
      unfold invalid_addresses. cbn [check_all_removed].
      by rewrite check_removed_raises.
    + apply check_pueblo_exn in E3 as ->. done.
  - apply check_denver_exn in E2 as ->. done.
Qed.

(** The validation phase returns exactly when every entry carries an
    address. *)
Lemma validate_returns_iff es u :
  (∃ b, (validate es u).2 = Return b) ↔ Forall has_address es.
Proof.
  split.
  - intros [b Hb]. apply Forall_forall. intros e Hin.
    destruct (address e) as [a|] eqn:Ha; [by exists a|].
    rewrite validate_raises in Hb; [done|].
    apply Exists_exists. eauto.
  - intros Hes. rewrite validate_result by done. eauto.
Qed.


Lemma not_all_addressed es :
  ¬ Forall has_address es → Exists (λ e, address e = None) es.
Proof.
  intros H. apply not_Forall_Exists in H; [|apply _].
  eapply Exists_impl; [exact H|]. intros e He. simpl in He.
  destruct (address e) as [a|] eqn:Ha; [|done].
  exfalso. apply He. unfold has_address. rewrite Ha. eauto.
Qed.

(** A scan that leaves an entry without an address ends the process with
    status 1, on the traceback. *)
Lemma abort_without_address files es :
  matched_entries files = Return es →
  ¬ Forall has_address es →
  (verify_wesco_cleanup (BaseDir files)).2 = Raise TypeError
  ∧ exit_status (BaseDir files) = 1.
Proof.
  intros Hscan Hno.
  destruct (verify_result files es Hscan) as [Hres _].
  assert ((verify_wesco_cleanup (BaseDir files)).2 = Raise TypeError) as Hrun.
  { rewrite Hres. by apply validate_raises, not_all_addressed. }
  split; [done|]. unfold exit_status. by rewrite Hrun.
Qed.

(** A run that returns [False] whenever it completes is unsuccessful. *)
Lemma unsuccessful_exit files es :
  matched_entries files = Return es →
  (Forall has_address es →
   (verify_wesco_cleanup (BaseDir files)).2 = Return false) →
  exit_status (BaseDir files) = 1.
Proof.
  intros Hscan Hfalse.
  destruct (decide (Forall has_address es)) as [Hes|Hno].
  - unfold exit_status. by rewrite (Hfalse Hes).
  - by apply (abort_without_address files es).
Qed.

(** ** The checklist is a conjunction *)

Lemma items_frame es u (it : bool → M bool) :
  Forall has_address es → it ∈ items es u →
  (∀ s, it s = ((it true).1, Return (s && passes (it true))))
  ∧ verdict_reported (it true).1 (passes (it true)).
Proof.
  intros Hes Hin. unfold items in Hin.
  repeat (apply elem_of_cons in Hin as [-> | Hin]).
  - split; [intros s; apply check_unique_frame | apply check_unique_reported].
  - split; [intros s; by apply check_denver_frame | by apply check_denver_reported].
  - split; [intros s; by apply check_pueblo_frame | by apply check_pueblo_reported].
  - split; [intros s; by apply check_removed_frame | by apply check_removed_reported].
  - split; [intros s; by apply check_removed_frame | by apply check_removed_reported].
  - split; [intros s; by apply check_removed_frame | by apply check_removed_reported].
  - by apply elem_of_nil in Hin.
Qed.

(** When all six items pass, every entry carries an address. *)
Lemma all_pass_addressed es u :
  forallb (λ it : bool → M bool, passes (it true)) (items es u) = true →
  Forall has_address es.
Proof.
  intros Hall. destruct (decide (Forall has_address es)) as [|Hno]; [done|].
  apply not_all_addressed in Hno.
  unfold items in Hall. cbn [forallb] in Hall.
  unfold passes in Hall at 4.
  rewrite (check_removed_raises es _ _ Hno) in Hall. cbn [snd] in Hall.
  by rewrite !andb_false_r in Hall.
Qed.

(** X16. Let the scan leave the aggregate [es].  When every entry of it
    carries an address, each of the six checklist items, whatever the value
    of [success] it starts from (so also after an earlier failure), prints
    the same report, whose first line is its verdict, and leaves [success]
    as the conjunction of the incoming value and its own verdict; the
    console of the validation phase is the reports of all six items in
    order, and the function returns the conjunction of the six verdicts.
    In every case the function returns [True] exactly when all six items
    pass, and the exit status is 0 exactly when it returns [True] and 1
    otherwise. *)
Theorem checklist_conjunction (files : gmap string file_content)
    (es : list matched_entry) :
  matched_entries files = Return es →
  let its := items es (dedup es) in
  let b := forallb (λ it : bool → M bool, passes (it true)) its in
  (Forall has_address es →
     Forall (λ it : bool → M bool,
               (∀ s, it s = ((it true).1, Return (s && passes (it true))))
               ∧ verdict_reported (it true).1 (passes (it true))) its
     ∧ (validate es (dedup es)).1
       = (check_unique (dedup es) true).1 ++ (check_denver es true).1
         ++ (check_pueblo es true).1
         ++ [""; "Checking for removed entries..."]
         ++ (check_removed es "756 S Jason" true).1
         ++ (check_removed es "6883 E 47th" true).1
         ++ (check_removed es "133 Commerce" true).1
         ++ (final_report b).1
     ∧ (∃ pre, (verify_wesco_cleanup (BaseDir files)).1
               = pre ++ (validate es (dedup es)).1)
     ∧ (verify_wesco_cleanup (BaseDir files)).2 = Return b)
  ∧ ((verify_wesco_cleanup (BaseDir files)).2 = Return true ↔ b = true)
  ∧ (exit_status (BaseDir files) = 0
     ↔ (verify_wesco_cleanup (BaseDir files)).2 = Return true)
  ∧ (exit_status (BaseDir files) = 0 ∨ exit_status (BaseDir files) = 1).
Proof.
  intros Hscan its b.
  destruct (verify_result files es Hscan) as [Hres Hout].
  split; [|split; [|split]].
  - intros Hes. split; [|split; [|split]].
    + apply Forall_forall. intros it Hin. by apply (items_frame es (dedup es)).
    + by rewrite validate_spec.
    + exact Hout.
    + rewrite Hres. by apply validate_result.
  - split.
    + intros Hrun. rewrite Hres in Hrun.
      assert (Forall has_address es) as Hes
        by (apply (validate_returns_iff es (dedup es)); eauto).
      rewrite validate_result in Hrun by done. by injection Hrun.
    + intros Hb. rewrite Hres, validate_result; [by f_equal|].
      by apply (all_pass_addressed es (dedup es)).
  - unfold exit_status.
    destruct (verify_wesco_cleanup (BaseDir files)).2 as [[]|]; by split.
  - unfold exit_status.
    destruct (verify_wesco_cleanup (BaseDir files)).2 as [[]|]; eauto.
Qed.

(** Three matching locations: the first item fails, the other five are
    still evaluated, and the result is [False]. *)
Lemma checklist_conjunction_witness :
  let es := aggregate three_location_files files_to_check in
  matched_entries three_location_files = Return es
  ∧ Forall has_address es
  ∧ (verify_wesco_cleanup (BaseDir three_location_files)).2
    = Return (forallb (λ it : bool → M bool, passes (it true))
                (items es (dedup es)))
  ∧ forallb (λ it : bool → M bool, passes (it true)) (items es (dedup es))
    = false.
Proof.
  assert (matched_entries three_location_files
          = Return (aggregate three_location_files files_to_check)) as H1
    by (vm_compute; reflexivity).
  assert (Forall has_address (aggregate three_location_files files_to_check))
    as H2 by (repeat constructor; by eexists).
  split; [exact H1|]. split; [exact H2|].
  split; [|vm_compute; reflexivity].
  exact (proj2 (proj2 (proj2
           (proj1 (checklist_conjunction three_location_files _ H1) H2)))).
Defined.

(** ** The Denver check *)

Lemma filter_nonempty_Exists {A} (P : A → Prop) `{!∀ x, Decision (P x)}
    (l : list A) :
  filter P l ≠ [] ↔ Exists P l.
Proof.
  rewrite Exists_exists. split.
  - destruct (filter P l) as [|x l'] eqn:E; [done|]. intros _.
    assert (x ∈ filter P l) as Hx by (rewrite E; left).
    apply list_elem_of_filter in Hx as [??]. eauto.
  - intros (x & Hin & HP) E.
    assert (x ∈ filter P l) as Hx by (by apply list_elem_of_filter).
    rewrite E in Hx. by apply elem_of_nil in Hx.
Qed.

Lemma forallb_consistent (l : list matched_entry) :
  forallb consistent l = true
  ↔ Forall (λ e, name e = Some "KVA Supply Co" ∧ chain e = Some "WESCO") l.
Proof.
  rewrite forallb_forall, Forall_forall. unfold consistent.
  setoid_rewrite andb_true_iff. setoid_rewrite py_eq_spec.
  setoid_rewrite list_elem_of_In. done.
Qed.

(** X17. Let the scan leave the aggregate [es], in which some entry has city
    Denver and an address containing "11198 E 45th".  If one such entry has
    another name than KVA Supply Co or another chain than WESCO, the run is
    unsuccessful (exit status 1); and when every entry carries an address,
    the Denver check then prints its FAIL line, sets [success] to [False],
    and the function returns [False].  If all such entries have that name
    and chain (and every entry carries an address), the Denver check leaves
    [success] as it found it whatever the operatingName values are, prints
    only the warning when the first such entry has an operatingName other
    than KVA Supply Co (or none), and the function returns the conjunction
    of the other five items. *)
Theorem denver_check (files : gmap string file_content)
    (es : list matched_entry) :
  matched_entries files = Return es →
  Exists (located "Denver" "11198 E 45th") es →
  (Exists (λ e, located "Denver" "11198 E 45th" e
                ∧ (name e ≠ Some "KVA Supply Co" ∨ chain e ≠ Some "WESCO")) es →
   exit_status (BaseDir files) = 1)
  ∧ (Forall has_address es →
     (Exists (λ e, located "Denver" "11198 E 45th" e
                   ∧ (name e ≠ Some "KVA Supply Co"
                      ∨ chain e ≠ Some "WESCO")) es →
        (∀ s, check_denver es s
              = (["❌ FAIL: Denver KVA Supply Co entries are inconsistent"],
                 Return false))
        ∧ (verify_wesco_cleanup (BaseDir files)).2 = Return false)
     ∧ (Forall (λ e, located "Denver" "11198 E 45th" e →
                     name e = Some "KVA Supply Co" ∧ chain e = Some "WESCO") es →
        (∀ s, (check_denver es s).2 = Return s)
        ∧ (∀ e, head (filter (located "Denver" "11198 E 45th") es) = Some e →
                operating_name e ≠ Some "KVA Supply Co" →
                ∀ s, check_denver es s
                     = (["⚠️  WARNING: Denver entry missing 'operatingName' field"],
                        Return s))
        ∧ (verify_wesco_cleanup (BaseDir files)).2
          = Return (passes (check_unique (dedup es) true)
                    && passes (check_pueblo es true)
                    && passes (check_removed es "756 S Jason" true)
                    && passes (check_removed es "6883 E 47th" true)
                    && passes (check_removed es "133 Commerce" true)))).
Proof.
  intros Hscan Hex.
  destruct (verify_result files es Hscan) as [Hres _].
  apply (proj2 (filter_nonempty_Exists _ es)) in Hex.
  assert (Forall has_address es →
          Exists (λ e, located "Denver" "11198 E 45th" e
                       ∧ (name e ≠ Some "KVA Supply Co"
                          ∨ chain e ≠ Some "WESCO")) es →
          (∀ s, check_denver es s
                = (["❌ FAIL: Denver KVA Supply Co entries are inconsistent"],
                   Return false))
          ∧ (verify_wesco_cleanup (BaseDir files)).2 = Return false) as Hbadcase.
  { intros Hes Hbad.
    assert (forallb consistent (filter (located "Denver" "11198 E 45th") es)
            = false) as Hall.
    { apply not_true_is_false. rewrite forallb_consistent, Forall_forall.
      intros Hall. apply Exists_exists in Hbad as (e & Hin & Hloc & Hne).
      destruct (Hall e) as [??]; [by apply list_elem_of_filter|].
      destruct Hne; congruence. }
    assert (∀ s, check_denver es s
                 = (["❌ FAIL: Denver KVA Supply Co entries are inconsistent"],
                    Return false)) as Hfail.
    { intros s. pose proof (check_denver_cases es Hes s) as H. cbv zeta in H.
      destruct (filter _ es) as [|entry dk']; [by destruct Hex|].
      by rewrite Hall in H. }
    split; [exact Hfail|].
    rewrite Hres. apply (validate_false es Hes _ (check_denver es)).
    + unfold items. set_solver.
    + unfold passes. by rewrite Hfail. }
  split; [|intros Hes; split; [by apply Hbadcase|]].
  - intros Hbad. apply (unsuccessful_exit files es Hscan).
    intros Hes. by apply Hbadcase.
  - intros Hgood.
    assert (forallb consistent (filter (located "Denver" "11198 E 45th") es)
            = true) as Hall.
    { rewrite forallb_consistent, Forall_forall. intros e Hin.
      apply list_elem_of_filter in Hin as [Hloc Hin].
      rewrite Forall_forall in Hgood. by apply Hgood. }
    assert (∀ s, (check_denver es s).2 = Return s) as Hkeep.
    { intros s. pose proof (check_denver_cases es Hes s) as H. cbv zeta in H.
      destruct (filter _ es) as [|entry dk']; [by destruct Hex|].
      rewrite Hall in H.
      destruct (py_eq (operating_name entry) _); by rewrite H. }
    split; [exact Hkeep|]. split.
    + intros e Hhead Hop s.
      pose proof (check_denver_cases es Hes s) as H. cbv zeta in H.
      destruct (filter _ es) as [|entry dk']; [by destruct Hex|].
      rewrite Hall in H. injection Hhead as ->.
      destruct (py_eq (operating_name e) _) eqn:E; [|done].
      by apply py_eq_spec in E.
    + rewrite Hres, validate_result by done. unfold items. cbn [forallb].
      unfold passes at 2. rewrite Hkeep. cbn [andb].
      by rewrite andb_true_r, !andb_assoc.
Qed.

(** Two entries at the Denver address, the second named Other Co: the
    consistency check fails (exit status 1). *)
Lemma denver_check_witness :
  let es := aggregate inconsistent_files files_to_check in
  matched_entries inconsistent_files = Return es
  ∧ Exists (located "Denver" "11198 E 45th") es
  ∧ Forall has_address es
  ∧ Exists (λ e, located "Denver" "11198 E 45th" e
                 ∧ (name e ≠ Some "KVA Supply Co" ∨ chain e ≠ Some "WESCO")) es
  ∧ (verify_wesco_cleanup (BaseDir inconsistent_files)).2 = Return false
  ∧ exit_status (BaseDir inconsistent_files) = 1.
Proof.
  assert (matched_entries inconsistent_files
          = Return (aggregate inconsistent_files files_to_check)) as H1
    by (vm_compute; reflexivity).
  assert (Exists (located "Denver" "11198 E 45th")
            (aggregate inconsistent_files files_to_check)) as H2
    by by_compute.
  assert (Forall has_address (aggregate inconsistent_files files_to_check))
    as H3 by (repeat constructor; by eexists).
  assert (Exists (λ e, located "Denver" "11198 E 45th" e
                       ∧ (name e ≠ Some "KVA Supply Co"
                          ∨ chain e ≠ Some "WESCO"))
            (aggregate inconsistent_files files_to_check)) as H4
    by by_compute.
  repeat (split; [assumption|]).
  split.
  - exact (proj2 (proj1 (proj2 (denver_check inconsistent_files _ H1 H2) H3) H4)).
  - exact (proj1 (denver_check inconsistent_files _ H1 H2) H4).
Defined.

(** ** The Pueblo check *)

Lemma pueblo_verdict_spec (pw : list matched_entry) :
  pueblo_verdict pw = true ↔ ∃ e, pw = [e] ∧ chain e = Some "WESCO".
Proof.
  unfold pueblo_verdict. destruct pw as [|e [|e2 pw']].
  - split; [done|]. by intros (e & ? & _).
  - rewrite py_eq_spec. split; [eauto|]. by intros (e' & [= <-] & ?).
  - split; [done|]. by intros (e' & ? & _).
Qed.

(** X18. Let the scan leave the aggregate [es] (duplicates not yet removed).
    Unless one single entry of it has city Pueblo and an address containing
    "115 S Main", and the chain of that entry is WESCO, the run is
    unsuccessful (exit status 1).  When every entry carries an address, the
    Pueblo check passes exactly in that case; its first line reports the
    verdict; when it does not pass it sets [success] to [False] whatever
    came before, and the function returns [False]. *)
Theorem pueblo_check (files : gmap string file_content)
    (es : list matched_entry) :
  matched_entries files = Return es →
  (¬ (∃ e, filter (located "Pueblo" "115 S Main") es = [e]
           ∧ chain e = Some "WESCO") →
   exit_status (BaseDir files) = 1)
  ∧ (Forall has_address es →
     (passes (check_pueblo es true) = true
      ↔ ∃ e, filter (located "Pueblo" "115 S Main") es = [e]
             ∧ chain e = Some "WESCO")
     ∧ verdict_reported (check_pueblo es true).1 (passes (check_pueblo es true))
     ∧ (∀ s, (check_pueblo es s).2 = Return (s && passes (check_pueblo es true)))
     ∧ (passes (check_pueblo es true) = false →
        (verify_wesco_cleanup (BaseDir files)).2 = Return false)).
Proof.
  intros Hscan.
  destruct (verify_result files es Hscan) as [Hres _].
  assert (Forall has_address es →
          passes (check_pueblo es true) = false →
          (verify_wesco_cleanup (BaseDir files)).2 = Return false) as Hfalse.
  { intros Hes Hno. rewrite Hres.
    apply (validate_false es Hes _ (check_pueblo es)); [|done].
    unfold items. set_solver. }
  split.
  - intros Hnot. apply (unsuccessful_exit files es Hscan).
    intros Hes. apply Hfalse; [done|].
    apply not_true_is_false. intros Hp. apply Hnot.
    rewrite check_pueblo_passes in Hp by done. by apply pueblo_verdict_spec.
  - intros Hes. split; [|split; [|split]].
    + rewrite check_pueblo_passes by done. apply pueblo_verdict_spec.
    + by apply check_pueblo_reported.
    + intros s. by rewrite check_pueblo_frame.
    + by apply Hfalse.
Qed.

Lemma pueblo_check_witness :
  let es := aggregate sample_files files_to_check in
  matched_entries sample_files = Return es
  ∧ Forall has_address es
  ∧ passes (check_pueblo es true) = true.
Proof.
  assert (matched_entries sample_files
          = Return (aggregate sample_files files_to_check)) as H1
    by (vm_compute; reflexivity).
  assert (Forall has_address (aggregate sample_files files_to_check))
    as H2 by (repeat constructor; by eexists).
  repeat (split; [assumption|]).
  apply (proj1 (proj2 (pueblo_check sample_files _ H1) H2)).
  eexists. split; vm_compute; reflexivity.
Defined.

(** ** The removed addresses *)

(** X19. Let the scan leave the aggregate [es], and let [addr] be one of the
    three removed addresses.  If the address of some entry contains [addr],
    the run is unsuccessful (exit status 1); and when every entry carries
    an address, the check for [addr] then prints its FAIL line, sets
    [success] to [False], and the function returns [False], while if no
    entry's address contains [addr] the check prints its PASS line and
    leaves [success] as it found it. *)
Theorem removed_checks (files : gmap string file_content)
    (es : list matched_entry) (addr : string) :
  matched_entries files = Return es →
  addr ∈ invalid_addresses →
  (Exists (address_has addr) es → exit_status (BaseDir files) = 1)
  ∧ (Forall has_address es →
     (Exists (address_has addr) es →
        (∀ s, check_removed es addr s
              = (["❌ FAIL: Found entry that should have been removed: "
                  +:+ addr],
                 Return false))
        ∧ (verify_wesco_cleanup (BaseDir files)).2 = Return false)
     ∧ (¬ Exists (address_has addr) es →
        ∀ s, check_removed es addr s
             = (["✅ PASS: Confirmed removed: " +:+ addr], Return s))).
Proof.
  intros Hscan Haddr.
  destruct (verify_result files es Hscan) as [Hres _].
  assert (Forall has_address es →
          Exists (address_has addr) es →
          (∀ s, check_removed es addr s
                = (["❌ FAIL: Found entry that should have been removed: "
                    +:+ addr], Return false))
          ∧ (verify_wesco_cleanup (BaseDir files)).2 = Return false) as Hbad.
  { intros Hes Hex. apply (proj2 (filter_nonempty_Exists _ es)) in Hex.
    assert (∀ s, check_removed es addr s
                 = (["❌ FAIL: Found entry that should have been removed: "
                     +:+ addr], Return false)) as Hfail.
    { intros s. pose proof (check_removed_cases es Hes addr s) as H.
      by destruct (filter _ es). }
    split; [exact Hfail|].
    rewrite Hres. apply (validate_false es Hes _ (check_removed es addr)).
    + unfold items, invalid_addresses in *. set_solver.
    + unfold passes. by rewrite Hfail. }
  split; [|intros Hes; split; [by apply Hbad|]].
  - intros Hex. apply (unsuccessful_exit files es Hscan).
    intros Hes. by apply Hbad.
  - intros Hnone s. pose proof (check_removed_cases es Hes addr s) as H.
    destruct (filter (address_has addr) es) eqn:E; [done|].
    exfalso. apply Hnone, (proj1 (filter_nonempty_Exists _ es)). by rewrite E.
Qed.

(** A data set with an entry at 756 S Jason St: the check for that address
    fails. *)
Lemma removed_checks_witness :
  let es := aggregate jason_files files_to_check in
  matched_entries jason_files = Return es
  ∧ "756 S Jason" ∈ invalid_addresses
  ∧ Forall has_address es
  ∧ Exists (address_has "756 S Jason") es
  ∧ (verify_wesco_cleanup (BaseDir jason_files)).2 = Return false
  ∧ exit_status (BaseDir jason_files) = 1.
Proof.
  assert (matched_entries jason_files
          = Return (aggregate jason_files files_to_check)) as H1
    by (vm_compute; reflexivity).
  assert ("756 S Jason" ∈ invalid_addresses) as H2 by by_compute.
  assert (Forall has_address (aggregate jason_files files_to_check))
    as H3 by (repeat constructor; by eexists).
  assert (Exists (address_has "756 S Jason")
            (aggregate jason_files files_to_check)) as H4 by by_compute.
  repeat (split; [assumption|]).
  split.
  - exact (proj2 (proj1 (proj2 (removed_checks jason_files _ _ H1 H2) H3) H4)).
  - exact (proj1 (removed_checks jason_files _ _ H1 H2) H4).
Defined.

(** ** C10: a matching record without [address1] *)

(** C10. A record named WESCO of chain WESCO without an [address1] field
    matches the filter, and its recorded address is [None].  A data set
    holding only this record makes the validation phase end in an uncaught
    TypeError, and the process exit with status 1 on the traceback: in the
    Denver check when the city is Denver, in the Pueblo check when the city
    is Pueblo, and in the first removed-address check for another city.
    The lines printed by the validation phase before the exception are
    listed; no later check is reported and no final banner is printed. *)
Theorem missing_address_aborts :
  let entry_in c := make_entry "denver-metro.json" (no_address_branch c) in
  (is_wesco (no_address_branch "Denver") = true
   ∧ no_address_branch "Denver" !! "address1" = None
   ∧ address (entry_in "Denver") = None)
  ∧ (matched_entries (no_address_files "Denver") = Return [entry_in "Denver"]
     ∧ validate [entry_in "Denver"] (dedup [entry_in "Denver"])
       = (["❌ FAIL: Expected exactly 2 unique WESCO locations, found 1"],
          Raise TypeError)
     ∧ (verify_wesco_cleanup (BaseDir (no_address_files "Denver"))).2
       = Raise TypeError
     ∧ exit_status (BaseDir (no_address_files "Denver")) = 1)
  ∧ (matched_entries (no_address_files "Pueblo") = Return [entry_in "Pueblo"]
     ∧ validate [entry_in "Pueblo"] (dedup [entry_in "Pueblo"])
       = (["❌ FAIL: Expected exactly 2 unique WESCO locations, found 1";
           "❌ FAIL: Expected at least 1 Denver KVA Supply Co entry, found 0"],
          Raise TypeError)
     ∧ (verify_wesco_cleanup (BaseDir (no_address_files "Pueblo"))).2
       = Raise TypeError)
  ∧ (matched_entries (no_address_files "Boulder") = Return [entry_in "Boulder"]
     ∧ validate [entry_in "Boulder"] (dedup [entry_in "Boulder"])
       = (["❌ FAIL: Expected exactly 2 unique WESCO locations, found 1";
           "❌ FAIL: Expected at least 1 Denver KVA Supply Co entry, found 0";
           "❌ FAIL: Expected 1 Pueblo WESCO entry, found 0";
           "";
           "Checking for removed entries..."],
          Raise TypeError)
     ∧ (verify_wesco_cleanup (BaseDir (no_address_files "Boulder"))).2
       = Raise TypeError
     ∧ ("❌ SOME CHECKS FAILED"
          ∉ (verify_wesco_cleanup (BaseDir (no_address_files "Boulder"))).1)).
Proof.
  cbv zeta. repeat split; try (vm_compute; reflexivity).
  by_compute.
Qed.

(** * Further properties of the script *)

(** ** The checklist as a condition on the aggregate *)

(** What the checklist asks of an aggregate, in the words of its checks:
    two distinct location keys; some entry at the Denver address, and all
    such entries named KVA Supply Co of chain WESCO; one single entry at the
    Pueblo address, of chain WESCO; no entry at a removed address. *)
Definition checklist_holds (es : list matched_entry) : Prop :=
  length (remove_dups (location_key <$> es)) = 2
  ∧ Exists (located "Denver" "11198 E 45th") es
  ∧ Forall (λ e, located "Denver" "11198 E 45th" e →
                 name e = Some "KVA Supply Co" ∧ chain e = Some "WESCO") es
  ∧ (∃ e, filter (located "Pueblo" "115 S Main") es = [e]
          ∧ chain e = Some "WESCO")
  ∧ Forall not_forbidden es.

(** An entry reduced to the fields the checks read. *)
Definition normalise (e : matched_entry) : matched_entry :=
  MatchedEntry "" (name e) (chain e) (city e) (address e) None None None.

(** The same record listed once more, in the file [f]. *)
Definition relisted (f : string) (e : matched_entry) : matched_entry :=
  MatchedEntry f (name e) (chain e) (city e) (address e) (phone e)
    (verified e) (operating_name e).

(** ** The scan (source lines 46-83) *)

Lemma scan_files_malformed files paths acc :
  Exists (λ p, files !! p = Some Malformed) paths →
  (scan_files files paths acc).2 = Raise JSONDecodeError.
Proof.
  intros Hex. revert acc.
  induction paths as [|p paths IH]; intros [es n]; [by apply Exists_nil in Hex|].
  cbn [scan_files].
  destruct (files !! p) as [[|d]|] eqn:Hp.
  - unfold scan_file. by rewrite Hp.
  - destruct (scan_file_result files es n p) as [o Ho]; [by rewrite Hp|].
    rewrite (bind_eq _ _ _ _ Ho). cbn [snd]. apply IH.
    apply Exists_cons in Hex as [Hex|Hex]; [congruence|done].
  - destruct (scan_file_result files es n p) as [o Ho]; [by rewrite Hp|].
    rewrite (bind_eq _ _ _ _ Ho). cbn [snd]. apply IH.
    apply Exists_cons in Hex as [Hex|Hex]; [congruence|done].
Qed.

Lemma malformed_or_not (files : gmap string file_content)
    (paths : list string) :
  Exists (λ p, files !! p = Some Malformed) paths
  ∨ Forall (λ p, files !! p ≠ Some Malformed) paths.
Proof.
  induction paths as [|p paths [IH|IH]].
  - right. constructor.
  - left. by right.
  - destruct (files !! p) as [[|d]|] eqn:Hp.
    + left. by left.
    + right. constructor; [by rewrite Hp|done].
    + right. constructor; [by rewrite Hp|done].
Qed.

(** A scan that returns met no malformed file and left the aggregate. *)
Lemma matched_entries_inv files es :
  matched_entries files = Return es →
  Forall (λ p, files !! p ≠ Some Malformed) files_to_check
  ∧ es = aggregate files files_to_check.
Proof.
  intros Hes.
  destruct (malformed_or_not files files_to_check) as [Hbad|Hok].
  - unfold matched_entries in Hes.
    by rewrite (scan_files_malformed _ _ _ Hbad) in Hes.
  - split; [done|]. rewrite (matched_entries_aggregate _ Hok) in Hes.
    by injection Hes.
Qed.

Lemma aggregate_length files paths :
  length (aggregate files paths) ≤ total_scanned files paths.
Proof.
  unfold aggregate, total_scanned.
  induction paths as [|p paths IH]; simpl; [done|].
  rewrite length_app, length_fmap.
  apply Nat.add_le_mono; [|exact IH].
  unfold compose, wesco_entries_of. generalize (branches_at files p). intros l.
  induction l as [|b l IHl]; simpl; [done|].
  destruct (is_wesco b); simpl; lia.
Qed.

(** X1. When none of the expected files that exist is malformed, the scan
    returns: its entries are the matching records of the files in the order
    of the file list and, inside a file, of its [branches] array; the count
    of scanned branches is the number of records of all present files,
    matching or not; and the entries are never more than that count. *)
Theorem scan_returns_aggregate (files : gmap string file_content) :
  Forall (λ p, files !! p ≠ Some Malformed) files_to_check →
  (∃ o, scan_files files files_to_check ([], 0)
        = (o, Return (aggregate files files_to_check,
                      total_scanned files files_to_check)))
  ∧ length (aggregate files files_to_check)
    ≤ total_scanned files files_to_check.
Proof.
  intros Hok. split; [|apply aggregate_length].
  destruct (scan_files_result files files_to_check [] 0 Hok) as [o Ho].
  exists o. by rewrite Ho.
Qed.

Lemma scan_returns_aggregate_witness :
  Forall (λ p, sample_files !! p ≠ Some Malformed) files_to_check
  ∧ length (aggregate sample_files files_to_check) = 2
  ∧ total_scanned sample_files files_to_check = 3
  ∧ ∃ o, scan_files sample_files files_to_check ([], 0)
         = (o, Return (aggregate sample_files files_to_check,
                       total_scanned sample_files files_to_check)).
Proof.
  assert (Forall (λ p, sample_files !! p ≠ Some Malformed) files_to_check)
    as H by (repeat constructor; by vm_compute).
  split; [exact H|]. split; [vm_compute; reflexivity|].
  split; [vm_compute; reflexivity|].
  exact (proj1 (scan_returns_aggregate sample_files H)).
Defined.

Lemma elem_of_aggregate files paths e :
  e ∈ aggregate files paths
  ↔ ∃ p b, p ∈ paths ∧ b ∈ branches_at files p ∧ is_wesco b = true
           ∧ e = make_entry p b.
Proof.
  unfold aggregate. rewrite list_elem_of_In, in_flat_map. split.
  - intros (p & Hp & He). apply list_elem_of_In, list_elem_of_fmap in He
      as (b & -> & Hb).
    unfold wesco_entries_of in Hb. apply list_elem_of_In, filter_In in Hb as [Hb ?].
    exists p, b. by rewrite !list_elem_of_In.
  - intros (p & b & Hp & Hb & Hw & ->). exists p.
    split; [by apply list_elem_of_In|].
    apply list_elem_of_In, list_elem_of_fmap. exists b. split; [done|].
    unfold wesco_entries_of. apply list_elem_of_In, filter_In.
    by rewrite <-list_elem_of_In.
Qed.

(** X2. Provenance. When the scan returns, an entry is in the aggregate
    exactly when it was made from a record that matches the filter and sits
    in the [branches] array of an expected file that exists; the entry
    carries the path of that file below [supplyfind-updates] and the seven
    fields of the record, a missing field as [None]. *)
Theorem aggregate_provenance (files : gmap string file_content)
    (es : list matched_entry) :
  matched_entries files = Return es →
  ∀ e, e ∈ es ↔
       ∃ p data b,
         p ∈ files_to_check ∧ files !! p = Some (Document data)
         ∧ b ∈ default [] data ∧ is_wesco b = true
         ∧ e = MatchedEntry ("us/co/" +:+ p) (b !! "name") (b !! "chain")
                 (b !! "city") (b !! "address1") (b !! "phone")
                 (b !! "last_verified") (b !! "operatingName").
Proof.
  intros Hes e. apply matched_entries_inv in Hes as [_ ->].
  rewrite elem_of_aggregate. split.
  - intros (p & b & Hp & Hb & Hw & ->). unfold branches_at in Hb.
    destruct (files !! p) as [[|data]|] eqn:Hf;
      [by apply elem_of_nil in Hb| |by apply elem_of_nil in Hb].
    by exists p, data, b.
  - intros (p & data & b & Hp & Hf & Hb & Hw & ->).
    exists p, b. unfold branches_at. by rewrite Hf.
Qed.

Lemma aggregate_provenance_witness :
  matched_entries sample_files
  = Return (aggregate sample_files files_to_check)
  ∧ make_entry "electrical/pueblo-south.json" pueblo_wesco_branch
    ∈ aggregate sample_files files_to_check.
Proof.
  assert (matched_entries sample_files
          = Return (aggregate sample_files files_to_check)) as H
    by (vm_compute; reflexivity).
  split; [exact H|].
  apply (proj2 (aggregate_provenance sample_files _ H _)).
  exists "electrical/pueblo-south.json", (Some [pueblo_wesco_branch]),
    pueblo_wesco_branch.
  split; [by_compute|]. split; [vm_compute; reflexivity|].
  split; [by left|]. split; reflexivity.
Defined.

(** ** The console of a run *)

Lemma bind_fst {A B} (m : M A) (k : A → M B) :
  (bind m k).1
  = m.1 ++ match m.2 with Return a => (k a).1 | Raise _ => [] end.
Proof.
  destruct m as [o [a|e]]; [by rewrite bind_Return|].
  by rewrite bind_Raise, app_nil_r.
Qed.

Lemma bind_snd {A B} (m : M A) (k : A → M B) :
  (bind m k).2 = match m.2 with Return a => (k a).2 | Raise e => Raise e end.
Proof. destruct m as [o [a|e]]; [by rewrite bind_Return|done]. Qed.

Lemma Forall_bind {A B} (P : string → Prop) (m : M A) (k : A → M B) :
  Forall P m.1 → (∀ a, Forall P (k a).1) → Forall P (bind m k).1.
Proof.
  intros Hm Hk. rewrite bind_fst. apply Forall_app. split; [done|].
  by destruct m.2.
Qed.

Lemma Forall_print {B} (P : string → Prop) (line : string) (k : unit → M B) :
  P line → Forall P (k tt).1 → Forall P (bind (print line) k).1.
Proof. intros. rewrite bind_print. by constructor. Qed.

Lemma record_entries_lines filepath bs acc :
  Forall is_scan_line (record_entries filepath bs acc).1.
Proof.
  revert acc. induction bs as [|b bs IH]; intros acc; cbn [record_entries].
  - constructor.
  - repeat (apply Forall_print; [right; right; reflexivity|]). apply IH.
Qed.

Lemma scan_file_lines files acc filepath :
  Forall is_scan_line (scan_file files acc filepath).1.
Proof.
  unfold scan_file. destruct acc as [es n].
  destruct (files !! filepath) as [[|data]|]; try by constructor.
  destruct (wesco_entries_of (default [] data)) as [|b bs]; [by constructor|].
  apply Forall_print; [right; left; reflexivity|].
  repeat (apply Forall_print; [right; right; reflexivity|]).
  apply Forall_bind; [apply record_entries_lines|]. intros a.
  apply Forall_print; [by left|]. constructor.
Qed.

Lemma scan_files_lines files paths acc :
  Forall is_scan_line (scan_files files paths acc).1.
Proof.
  revert acc. induction paths as [|p paths IH]; intros acc; cbn [scan_files].
  - constructor.
  - apply Forall_bind; [apply scan_file_lines|]. intros a. apply IH.
Qed.

Lemma scan_line_no_report l : is_scan_line l → is_report_line l = false.
Proof.
  intros [->|[H|H]]; [reflexivity| |];
    apply prefix_spec in H as [post ->]; reflexivity.
Qed.

(** X3. A malformed expected file ends the run in the JSON decoding error
    (exit status 1): the console holds the four heading lines and what the
    scan of the earlier files printed, and nothing of the summary, of the
    checklist or of the closing banners. *)
Theorem malformed_file_aborts (files : gmap string file_content) :
  Exists (λ p, files !! p = Some Malformed) files_to_check →
  (verify_wesco_cleanup (BaseDir files)).2 = Raise JSONDecodeError
  ∧ exit_status (BaseDir files) = 1
  ∧ (verify_wesco_cleanup (BaseDir files)).1
    = header ++ (scan_files files files_to_check ([], 0)).1
  ∧ Forall (λ l, is_report_line l = false)
      (verify_wesco_cleanup (BaseDir files)).1.
Proof.
  intros Hbad.
  pose proof (scan_files_malformed files files_to_check ([], 0) Hbad) as Hscan.
  assert (verify_wesco_cleanup (BaseDir files)
          = (header ++ (scan_files files files_to_check ([], 0)).1,
             Raise JSONDecodeError)) as Hrun.
  { unfold verify_wesco_cleanup, verify_paths. rewrite !bind_print.
    destruct (scan_files files files_to_check ([], 0)) as [o [a|e]];
      cbn [snd] in Hscan; [done|]. injection Hscan as ->.
    by rewrite bind_Raise. }
  rewrite Hrun. cbn [fst snd].
  split; [done|]. split; [unfold exit_status; by rewrite Hrun|].
  split; [done|]. apply Forall_app. split.
  - by repeat constructor.
  - eapply Forall_impl; [apply scan_files_lines|]. apply scan_line_no_report.
Qed.

Lemma malformed_file_aborts_witness :
  Exists (λ p, malformed_files !! p = Some Malformed) files_to_check
  ∧ (verify_wesco_cleanup (BaseDir malformed_files)).2 = Raise JSONDecodeError.
Proof.
  assert (Exists (λ p, malformed_files !! p = Some Malformed) files_to_check)
    as H by (right; left; vm_compute; reflexivity).
  split; [exact H|]. exact (proj1 (malformed_file_aborts malformed_files H)).
Defined.

(** X4. When the scan returns, the run ends in a TypeError exactly when some
    matching entry lacks an address, returns a flag exactly when every
    entry carries one, and never ends in the JSON decoding error. *)
Theorem abort_iff_missing_address (files : gmap string file_content)
    (es : list matched_entry) :
  matched_entries files = Return es →
  ((verify_wesco_cleanup (BaseDir files)).2 = Raise TypeError
   ↔ ¬ Forall has_address es)
  ∧ ((∃ b, (verify_wesco_cleanup (BaseDir files)).2 = Return b)
     ↔ Forall has_address es)
  ∧ (verify_wesco_cleanup (BaseDir files)).2 ≠ Raise JSONDecodeError.
Proof.
  intros Hscan. destruct (verify_result files es Hscan) as [-> _].
  destruct (decide (Forall has_address es)) as [Hes|Hno].
  - rewrite validate_result by done. split; [|split]; [|naive_solver|done].
    split; [done|]. intros Hno. by destruct Hno.
  - rewrite (validate_raises es _ (not_all_addressed es Hno)).
    split; [|split]; [done| |done].
    split; [by intros [b ?]|done].
Qed.

Lemma abort_iff_missing_address_witness :
  let es := [make_entry "denver-metro.json" (no_address_branch "Boulder")] in
  matched_entries (no_address_files "Boulder") = Return es
  ∧ ¬ Forall has_address es
  ∧ (verify_wesco_cleanup (BaseDir (no_address_files "Boulder"))).2
    = Raise TypeError.
Proof.
  assert (matched_entries (no_address_files "Boulder")
          = Return [make_entry "denver-metro.json" (no_address_branch "Boulder")])
    as H1 by (vm_compute; reflexivity).
  assert (¬ Forall has_address
            [make_entry "denver-metro.json" (no_address_branch "Boulder")])
    as H2.
  { intros H. apply Forall_cons in H as [[a Ha] _]. discriminate Ha. }
  split; [exact H1|]. split; [exact H2|].
  exact (proj2 (proj1 (abort_iff_missing_address _ _ H1)) H2).
Defined.

Lemma Forall_bind_returned {A B} (P : string → Prop) (m : M A) (k : A → M B) :
  Forall P m.1 → (∀ a, m.2 = Return a → Forall P (k a).1) →
  Forall P (bind m k).1.
Proof.
  intros Hm Hk. rewrite bind_fst. apply Forall_app. split; [done|].
  destruct m.2; [by apply Hk|constructor].
Qed.

Lemma check_unique_lines u s : Forall plain_line (check_unique u s).1.
Proof. unfold check_unique. case_decide; by repeat constructor. Qed.

Lemma check_denver_lines es s : Forall plain_line (check_denver es s).1.
Proof.
  unfold check_denver.
  destruct (comprehension is_denver_kva es) as [dk|x]; [|constructor].
  rewrite bind_lift_Return. destruct dk as [|entry dk']; [by repeat constructor|].
  destruct (forallb consistent (entry :: dk')) eqn:Hall;
    [|by repeat constructor].
  assert (consistent entry = true) as Hc.
  { simpl in Hall. by apply andb_true_iff in Hall as [? _]. }
  apply andb_true_iff in Hc as [Hn Hch].
  cbn [negb]. rewrite Hn, Hch. cbn [negb].
  destruct (py_eq (operating_name entry) "KVA Supply Co"); cbn [negb];
    [|by repeat constructor].
  destruct (decide (1 < length (entry :: dk'))); by repeat constructor.
Qed.

Lemma check_pueblo_lines es s : Forall plain_line (check_pueblo es s).1.
Proof.
  unfold check_pueblo.
  destruct (comprehension is_pueblo_wesco es) as [pw|x]; [|constructor].
  rewrite bind_lift_Return.
  destruct pw as [|entry [|entry2 pw']]; [by repeat constructor| |
    by repeat constructor].
  destruct (negb _); by repeat constructor.
Qed.

Lemma check_removed_lines es addr s :
  Forall plain_line (check_removed es addr s).1.
Proof.
  unfold check_removed.
  destruct (comprehension _ es) as [found|x]; [|constructor].
  rewrite bind_lift_Return. destruct found; by repeat constructor.
Qed.

Lemma check_all_removed_lines es addrs s :
  Forall plain_line (check_all_removed es addrs s).1.
Proof.
  revert s. induction addrs as [|addr addrs IH]; intros s;
    cbn [check_all_removed]; [constructor|].
  apply Forall_bind; [apply check_removed_lines|]. intros a. apply IH.
Qed.

Lemma check_all_removed_raises es s :
  Exists (λ e, address e = None) es →
  (check_all_removed es invalid_addresses s).2 = Raise TypeError.
Proof.
  intros Hex. unfold invalid_addresses. cbn [check_all_removed].
  by rewrite (check_removed_raises es _ _ Hex).
Qed.

Lemma final_report_lines s :
  Forall (λ l, is_single_entry_line l = false) (final_report s).1.
Proof. destruct s; by repeat constructor. Qed.

Lemma checklist_lines_plain es u : Forall plain_line (checklist_lines es u).
Proof.
  unfold checklist_lines. repeat (apply Forall_app; split);
    auto using check_unique_lines, check_denver_lines, check_pueblo_lines,
      check_removed_lines.
  by repeat constructor.
Qed.

Lemma validate_aborted_lines es u :
  Exists (λ e, address e = None) es → Forall plain_line (validate es u).1.
Proof.
  intros Hex. unfold validate.
  apply Forall_bind; [apply check_unique_lines|]. intros s1.
  apply Forall_bind; [apply check_denver_lines|]. intros s2.
  apply Forall_bind; [apply check_pueblo_lines|]. intros s3.
  do 2 (apply Forall_print; [done|]).
  apply Forall_bind_returned; [apply check_all_removed_lines|].
  intros s4 Hs4. by rewrite check_all_removed_raises in Hs4.
Qed.

(** The console of a run whose scan returned: a body without closing banner,
    then the closing block of the flag when the run returns one. *)
Lemma console_split files es :
  matched_entries files = Return es →
  ∃ body,
    (verify_wesco_cleanup (BaseDir files)).1
    = body ++ match (verify_wesco_cleanup (BaseDir files)).2 with
              | Return b => (final_report b).1
              | Raise _ => []
              end
    ∧ Forall plain_line body.
Proof.
  intros Hscan. unfold matched_entries in Hscan.
  destruct (scan_files files files_to_check ([], 0)) as [o [[es' n]|e]] eqn:Hs;
    [|done].
  injection Hscan as ->. rewrite (verify_spec _ _ _ _ Hs). cbn [fst snd].
  assert (Forall plain_line (header ++ o ++ (summary es n (dedup es)).1))
    as Hpre.
  { apply Forall_app. split; [by repeat constructor|].
    apply Forall_app. split; [|by repeat constructor].
    pose proof (scan_files_lines files files_to_check ([], 0)) as Hl.
    rewrite Hs in Hl. eapply Forall_impl; [exact Hl|].
    intros l [->|[H|H]]; [done| |];
      apply prefix_spec in H as [post ->]; done. }
  destruct (decide (Forall has_address es)) as [Hes|Hno].
  - rewrite (validate_spec es Hes). cbn [fst snd].
    exists (header ++ o ++ (summary es n (dedup es)).1
            ++ checklist_lines es (dedup es)).
    split.
    + unfold checklist_lines. by rewrite <-!app_assoc.
    + rewrite !app_assoc. apply Forall_app. split;
        [by rewrite <-!app_assoc|apply checklist_lines_plain].
  - pose proof (not_all_addressed es Hno) as Hex.
    rewrite (validate_raises es _ Hex).
    exists (header ++ o ++ (summary es n (dedup es)).1
            ++ (validate es (dedup es)).1).
    split; [by rewrite app_nil_r|].
    rewrite !app_assoc. apply Forall_app. split;
      [by rewrite <-!app_assoc|by apply validate_aborted_lines].
Qed.

(** X5. The closing banner agrees with the outcome, print call by print
    call (the console is the list of the texts handed to [print], one
    element a call). When the scan returns, the call that prints ALL CHECKS
    PASSED is made exactly when the function returns [True] (exit status
    0), and the call that prints SOME CHECKS FAILED exactly when it returns
    [False]; a run that aborts makes neither call, and no other call
    prints exactly one of these two texts. A name, chain, city or address
    that holds a line break is part of the text of one call: the statement
    counts calls, not the lines of the output stream. *)
Theorem banner_agrees (files : gmap string file_content)
    (es : list matched_entry) :
  matched_entries files = Return es →
  ("✅ ALL CHECKS PASSED" ∈ (verify_wesco_cleanup (BaseDir files)).1
   ↔ (verify_wesco_cleanup (BaseDir files)).2 = Return true)
  ∧ ("❌ SOME CHECKS FAILED" ∈ (verify_wesco_cleanup (BaseDir files)).1
     ↔ (verify_wesco_cleanup (BaseDir files)).2 = Return false)
  ∧ ("✅ ALL CHECKS PASSED" ∈ (verify_wesco_cleanup (BaseDir files)).1
     ↔ exit_status (BaseDir files) = 0).
Proof.
  intros Hscan. destruct (console_split files es Hscan) as (body & -> & Hbody).
  assert (∀ l, is_banner_line l = true → l ∉ body) as Hnot.
  { intros l Hl Hin. rewrite Forall_forall in Hbody.
    destruct (Hbody l Hin) as [? _]. congruence. }
  unfold exit_status.
  destruct (verify_wesco_cleanup (BaseDir files)).2 as [[]|x];
    rewrite ?app_nil_r, ?elem_of_app.
  - split; [|split]; split; try done.
    + intros _. right. by_compute.
    + intros [H|H]; [by apply Hnot in H|]. exfalso. revert H. by_compute.
    + intros _. right. by_compute.
  - split; [|split]; split; try done.
    + intros [H|H]; [by apply Hnot in H|]. exfalso. revert H. by_compute.
    + intros _. right. by_compute.
    + intros [H|H]; [by apply Hnot in H|]. exfalso. revert H. by_compute.
  - split; [|split]; split; try done; intros H; by apply Hnot in H.
Qed.

Lemma banner_agrees_witness :
  matched_entries sample_files = Return (aggregate sample_files files_to_check)
  ∧ "✅ ALL CHECKS PASSED" ∈ (verify_wesco_cleanup (BaseDir sample_files)).1.
Proof.
  assert (matched_entries sample_files
          = Return (aggregate sample_files files_to_check)) as H
    by (vm_compute; reflexivity).
  split; [exact H|].
  apply (proj2 (proj1 (banner_agrees sample_files _ H))).
  vm_compute. reflexivity.
Defined.

(** ** The Denver check's unreachable messages *)

Lemma validate_lines es u :
  Forall (λ l, is_single_entry_line l = false) (validate es u).1.
Proof.
  assert (∀ o, Forall plain_line o →
               Forall (λ l, is_single_entry_line l = false) o) as Hplain.
  { intros o Ho. eapply Forall_impl; [exact Ho|]. by intros l [_ ?]. }
  unfold validate.
  apply Forall_bind; [apply Hplain, check_unique_lines|]. intros s1.
  apply Forall_bind; [apply Hplain, check_denver_lines|]. intros s2.
  apply Forall_bind; [apply Hplain, check_pueblo_lines|]. intros s3.
  do 2 (apply Forall_print; [done|]).
  apply Forall_bind; [apply Hplain, check_all_removed_lines|]. intros s4.
  apply Forall_bind; [apply final_report_lines|]. intros _. constructor.
Qed.

(** X6. The two FAIL messages of the Denver check that name a single entry
    ("Denver entry name is ..." and "Denver entry chain is ...", lines
    132-137) are never printed, whatever the file system holds: they sit
    behind the consistency test over all Denver entries, which the first
    entry has passed when they are reached. *)
Theorem single_entry_messages_dead (fs : filesystem) :
  Forall (λ l, String.prefix "❌ FAIL: Denver entry" l = false)
    (verify_wesco_cleanup fs).1.
Proof.
  change (Forall (λ l, is_single_entry_line l = false)
            (verify_wesco_cleanup fs).1).
  destruct fs as [|files]; [by repeat constructor|].
  unfold verify_wesco_cleanup, verify_paths.
  do 4 (apply Forall_print; [done|]).
  apply Forall_bind.
  - eapply Forall_impl; [apply scan_files_lines|].
    intros l [->|[H|H]]; [done| |];
      apply prefix_spec in H as [post ->]; done.
  - intros acc. apply Forall_bind; [by repeat constructor|].
    intros _. apply validate_lines.
Qed.

(** ** The count of unique locations (source lines 93-110) *)

Lemma validate_starts es u :
  ∃ rest, (validate es u).1 = (check_unique u true).1 ++ rest.
Proof.
  unfold validate. rewrite (bind_eq _ _ _ _ (check_unique_frame u true)).
  cbn [fst]. eauto.
Qed.

(** X7. When the scan returns, the number [n] of distinct location keys of
    the aggregate is printed in the summary, and the first check reports on
    it before any other check runs, so also in a run that later aborts:
    with [n] other than 2 its FAIL line carrying [n] is on the console and
    the run is unsuccessful (exit status 1); with [n = 2] its PASS line is
    on the console. *)
Theorem unique_count_reported (files : gmap string file_content)
    (es : list matched_entry) :
  matched_entries files = Return es →
  let n := length (remove_dups (location_key <$> es)) in
  let console := (verify_wesco_cleanup (BaseDir files)).1 in
  ("Unique WESCO/KVA locations: " +:+ pretty n) ∈ console
  ∧ (n ≠ 2 →
     ("❌ FAIL: Expected exactly 2 unique WESCO locations, found " +:+ pretty n)
       ∈ console
     ∧ exit_status (BaseDir files) = 1)
  ∧ (n = 2 →
     "✅ PASS: Exactly 2 unique WESCO/KVA locations found" ∈ console).
Proof.
  intros Hscan n console. subst console.
  assert (size (dedup es) = n) as Hn by apply dedup_size.
  clearbody n. subst n.
  pose proof Hscan as Hscan'. unfold matched_entries in Hscan'.
  destruct (scan_files files files_to_check ([], 0)) as [o [[es' k]|e]] eqn:Hs;
    [|done].
  injection Hscan' as ->. rewrite (verify_spec _ _ _ _ Hs). cbn [fst].
  destruct (validate_starts es (dedup es)) as [rest ->].
  split; [|split].
  - rewrite !elem_of_app. right. right. left.
    unfold summary. rewrite !bind_print. cbn [fst]. set_solver.
  - intros Hne. split.
    + rewrite !elem_of_app. do 3 right. left.
      unfold check_unique. case_decide; [|done]. cbn. left.
    + apply (unsuccessful_exit files es Hscan). intros Hes.
      destruct (verify_result files es Hscan) as [-> _].
      apply (validate_false es Hes _ (check_unique (dedup es))).
      * unfold items. set_solver.
      * rewrite check_unique_passes. by case_bool_decide.
  - intros Heq. rewrite !elem_of_app. do 3 right. left.
    unfold check_unique. case_decide; [done|]. cbn. left.
Qed.

Lemma unique_count_reported_witness :
  let es := aggregate three_location_files files_to_check in
  matched_entries three_location_files = Return es
  ∧ length (remove_dups (location_key <$> es)) = 3
  ∧ "❌ FAIL: Expected exactly 2 unique WESCO locations, found 3"
      ∈ (verify_wesco_cleanup (BaseDir three_location_files)).1.
Proof.
  assert (matched_entries three_location_files
          = Return (aggregate three_location_files files_to_check)) as H
    by (vm_compute; reflexivity).
  split; [exact H|]. split; [vm_compute; reflexivity|].
  refine (proj1 (proj1 (proj2 (unique_count_reported _ _ H)) _)).
  vm_compute. lia.
Defined.

(** ** When the run succeeds *)

Lemma filter_nil_Forall {A} (P : A → Prop) `{!∀ x, Decision (P x)}
    (l : list A) :
  filter P l = [] ↔ Forall (λ x, ¬ P x) l.
Proof.
  rewrite Forall_forall. split.
  - intros Hnil x Hin HP.
    assert (x ∈ filter P l) as Hx by (by apply list_elem_of_filter).
    rewrite Hnil in Hx. by apply elem_of_nil in Hx.
  - intros Hall. destruct (filter P l) as [|x l'] eqn:E; [done|].
    assert (x ∈ filter P l) as Hx by (rewrite E; left).
    apply list_elem_of_filter in Hx as [HP Hin]. by destruct (Hall x Hin).
Qed.

Lemma Forall_filter_impl {A} (P Q : A → Prop) `{!∀ x, Decision (Q x)}
    (l : list A) :
  Forall P (filter Q l) ↔ Forall (λ x, Q x → P x) l.
Proof.
  rewrite !Forall_forall. split.
  - intros Hall x Hin HQ. apply Hall. by apply list_elem_of_filter.
  - intros Hall x Hx. apply list_elem_of_filter in Hx as [HQ Hin].
    by apply Hall.
Qed.

Lemma denver_verdict_spec (es : list matched_entry) :
  denver_verdict (filter (located "Denver" "11198 E 45th") es) = true
  ↔ Exists (located "Denver" "11198 E 45th") es
    ∧ Forall (λ e, located "Denver" "11198 E 45th" e →
                   name e = Some "KVA Supply Co" ∧ chain e = Some "WESCO") es.
Proof.
  rewrite <-(filter_nonempty_Exists (located "Denver" "11198 E 45th") es).
  rewrite <-(Forall_filter_impl _ (located "Denver" "11198 E 45th") es).
  rewrite <-forallb_consistent. unfold denver_verdict. destruct (filter _ es) as [|e l].
  - split; [done|]. by intros [? _].
  - split; [done|]. by intros [_ ?].
Qed.

Lemma removed_pass_spec (es : list matched_entry) :
  (filter (address_has "756 S Jason") es = []
   ∧ filter (address_has "6883 E 47th") es = []
   ∧ filter (address_has "133 Commerce") es = [])
  ↔ Forall not_forbidden es.
Proof.
  rewrite !filter_nil_Forall. unfold not_forbidden, invalid_addresses.
  rewrite !(Forall_forall (A:=matched_entry)). split.
  - intros (H1 & H2 & H3) e Hin.
    repeat constructor; [by apply H1|by apply H2|by apply H3].
  - intros Hall. repeat split; intros e Hin; specialize (Hall e Hin);
      apply Forall_cons in Hall as [Ha1 Hall];
      apply Forall_cons in Hall as [Ha2 Hall];
      apply Forall_cons in Hall as [Ha3 _]; done.
Qed.

Lemma all_pass_iff es :
  Forall has_address es →
  forallb (λ it : bool → M bool, passes (it true)) (items es (dedup es)) = true
  ↔ checklist_holds es.
Proof.
  intros Hes. unfold items, checklist_holds. cbn [forallb].
  rewrite !andb_true_iff.
  rewrite check_unique_passes, (check_denver_passes es Hes),
    (check_pueblo_passes es Hes), !(check_removed_passes es Hes).
  rewrite !bool_decide_eq_true, dedup_size, denver_verdict_spec,
    pueblo_verdict_spec, <-removed_pass_spec.
  tauto.
Qed.

Lemma validate_true_iff es :
  (validate es (dedup es)).2 = Return true
  ↔ Forall has_address es ∧ checklist_holds es.
Proof.
  split.
  - intros Hrun.
    assert (Forall has_address es) as Hes
      by (apply (validate_returns_iff es (dedup es)); eauto).
    split; [done|]. apply all_pass_iff; [done|].
    rewrite validate_result in Hrun by done. by injection Hrun.
  - intros [Hes Hok]. rewrite validate_result by done. f_equal.
    by apply all_pass_iff.
Qed.

(** X8. When the scan returns, the function returns [True], and the process
    exits with status 0, exactly when every matching entry carries an
    address and the aggregate meets the checklist: two distinct location
    keys, at least one entry at the Denver address and all of them named
    KVA Supply Co of chain WESCO, one single entry at the Pueblo address
    and of chain WESCO, no entry at a removed address. *)
Theorem success_iff (files : gmap string file_content)
    (es : list matched_entry) :
  matched_entries files = Return es →
  ((verify_wesco_cleanup (BaseDir files)).2 = Return true
   ↔ Forall has_address es ∧ checklist_holds es)
  ∧ (exit_status (BaseDir files) = 0
     ↔ Forall has_address es ∧ checklist_holds es).
Proof.
  intros Hscan. destruct (verify_result files es Hscan) as [Hres _].
  assert ((verify_wesco_cleanup (BaseDir files)).2 = Return true
          ↔ Forall has_address es ∧ checklist_holds es) as Hiff
    by (rewrite Hres; apply validate_true_iff).
  split; [done|]. rewrite <-Hiff. unfold exit_status.
  destruct (verify_wesco_cleanup (BaseDir files)).2 as [[]|]; by split.
Qed.

(** The Denver entry listed in two files and the Pueblo entry once: the
    checklist holds and the run succeeds. *)
Lemma success_iff_witness :
  let es := aggregate duplicated_files files_to_check in
  matched_entries duplicated_files = Return es
  ∧ length es = 3
  ∧ checklist_holds es
  ∧ exit_status (BaseDir duplicated_files) = 0.
Proof.
  assert (matched_entries duplicated_files
          = Return (aggregate duplicated_files files_to_check)) as H
    by (vm_compute; reflexivity).
  assert (exit_status (BaseDir duplicated_files) = 0) as H0
    by (vm_compute; reflexivity).
  split; [exact H|]. split; [vm_compute; reflexivity|].
  split; [|exact H0].
  exact (proj2 (proj1 (proj2 (success_iff duplicated_files _ H)) H0)).
Defined.

(** ** What the outcome depends on *)

Lemma outcome_invariant es es' :
  (Forall has_address es ↔ Forall has_address es') →
  (checklist_holds es ↔ checklist_holds es') →
  (validate es (dedup es)).2 = (validate es' (dedup es')).2.
Proof.
  intros Haddr Hok. destruct (decide (Forall has_address es)) as [Hes|Hno].
  - pose proof (proj1 Haddr Hes) as Hes'.
    rewrite !validate_result by done. f_equal.
    apply Bool.eq_iff_eq_true. by rewrite !all_pass_iff.
  - assert (¬ Forall has_address es') as Hno' by (by rewrite <-Haddr).
    by rewrite !validate_raises by by apply not_all_addressed.
Qed.

Lemma filter_normalise (P : matched_entry → Prop) `{!∀ e, Decision (P e)}
    (es : list matched_entry) :
  (∀ e, P (normalise e) ↔ P e) →
  filter P (normalise <$> es) = normalise <$> filter P es.
Proof.
  intros HP. induction es as [|e es IH]; [done|].
  rewrite fmap_cons, !filter_cons, IH.
  destruct (decide (P (normalise e))) as [Hn|Hn];
    destruct (decide (P e)) as [He|He]; try done.
  - destruct He. by apply HP.
  - destruct Hn. by apply HP.
Qed.

Lemma checklist_holds_normalise es :
  checklist_holds (normalise <$> es) ↔ checklist_holds es.
Proof.
  unfold checklist_holds.
  rewrite <-list_fmap_compose, Exists_fmap, !Forall_fmap.
  rewrite (filter_normalise (located "Pueblo" "115 S Main")) by done.
  assert ((∃ e, normalise <$> filter (located "Pueblo" "115 S Main") es = [e]
                ∧ chain e = Some "WESCO")
          ↔ ∃ e, filter (located "Pueblo" "115 S Main") es = [e]
                 ∧ chain e = Some "WESCO") as ->; [|done].
  destruct (filter _ es) as [|e0 [|e1 l]].
  - split; by intros (e & ? & _).
  - split.
    + intros (e & [= <-] & ?). eauto.
    + intros (e & [= <-] & ?). eauto.
  - split; by intros (e & ? & _).
Qed.

Lemma normalise_core (es es' : list matched_entry) :
  core <$> es = core <$> es' → normalise <$> es = normalise <$> es'.
Proof.
  intros H.
  pose (g := λ c : option string * option string * option string
                   * option string,
          MatchedEntry "" c.1.2 c.2 c.1.1.1 c.1.1.2 None None None).
  assert (∀ l : list matched_entry, normalise <$> l = g <$> (core <$> l))
    as Hg.
  { intros l. rewrite <-list_fmap_compose. done. }
  by rewrite !Hg, H.
Qed.

(** X9. The outcome depends only on the city, address, name and chain of
    the matching entries: two file systems whose scans return aggregates
    that agree on these four fields, entry by entry, give the same result
    (the same flag or the same exception) and the same exit status.  So
    records that do not match the filter, and the phone, last_verified and
    operatingName fields and the source file of a matching record, never
    change the outcome. *)
Theorem outcome_depends_on_core (files files' : gmap string file_content)
    (es es' : list matched_entry) :
  matched_entries files = Return es →
  matched_entries files' = Return es' →
  core <$> es = core <$> es' →
  (verify_wesco_cleanup (BaseDir files)).2
  = (verify_wesco_cleanup (BaseDir files')).2
  ∧ exit_status (BaseDir files) = exit_status (BaseDir files').
Proof.
  intros Hes Hes' Hcore.
  assert ((verify_wesco_cleanup (BaseDir files)).2
          = (verify_wesco_cleanup (BaseDir files')).2) as Hrun.
  { destruct (verify_result files es Hes) as [-> _].
    destruct (verify_result files' es' Hes') as [-> _].
    apply normalise_core in Hcore. apply outcome_invariant.
    - rewrite <-(Forall_fmap normalise has_address es),
        <-(Forall_fmap normalise has_address es'). by rewrite Hcore.
    - by rewrite <-(checklist_holds_normalise es),
        <-(checklist_holds_normalise es'), Hcore. }
  split; [done|]. unfold exit_status. by rewrite Hrun.
Qed.

(** The sample data set against the one without the Graybar record and
    without the operatingName of the Denver record. *)
Lemma outcome_depends_on_core_witness :
  let files' : gmap string file_content :=
    <["denver-metro.json" :=
        Document (Some [delete "operatingName" denver_kva_branch])]>
    (<["electrical/pueblo-south.json" :=
        Document (Some [pueblo_wesco_branch])]> ∅) in
  matched_entries sample_files = Return (aggregate sample_files files_to_check)
  ∧ matched_entries files' = Return (aggregate files' files_to_check)
  ∧ (verify_wesco_cleanup (BaseDir sample_files)).2
    = (verify_wesco_cleanup (BaseDir files')).2.
Proof.
  intros files'.
  assert (matched_entries sample_files
          = Return (aggregate sample_files files_to_check)) as H1
    by (vm_compute; reflexivity).
  assert (matched_entries files' = Return (aggregate files' files_to_check))
    as H2 by (vm_compute; reflexivity).
  assert (core <$> aggregate sample_files files_to_check
          = core <$> aggregate files' files_to_check) as H3
    by (vm_compute; reflexivity).
  split; [exact H1|]. split; [exact H2|].
  exact (proj1 (outcome_depends_on_core _ _ _ _ H1 H2 H3)).
Defined.

Lemma checklist_holds_Permutation (es es' : list matched_entry) :
  es ≡ₚ es' → checklist_holds es → checklist_holds es'.
Proof.
  intros Hp (Hn & Hd & Hc & (e & Hf & Hch) & Hr). unfold checklist_holds.
  split; [|split; [|split; [|split]]].
  - rewrite <-Hn, <-!size_list_to_set_remove_dups. f_equal.
    apply set_eq. intros k. rewrite !elem_of_list_to_set. by rewrite Hp.
  - by rewrite <-Hp.
  - by rewrite <-Hp.
  - exists e. split; [|done].
    apply Permutation_singleton_r. by rewrite <-Hp, Hf.
  - by rewrite <-Hp.
Qed.

(** X10. The outcome does not depend on the order of the matching entries,
    that is on the order of the files in the list or of the records in a
    file: scans that return the same entries in another order give the
    same result and the same exit status. *)
Theorem outcome_order_independent (files files' : gmap string file_content)
    (es es' : list matched_entry) :
  matched_entries files = Return es →
  matched_entries files' = Return es' →
  es ≡ₚ es' →
  (verify_wesco_cleanup (BaseDir files)).2
  = (verify_wesco_cleanup (BaseDir files')).2
  ∧ exit_status (BaseDir files) = exit_status (BaseDir files').
Proof.
  intros Hes Hes' Hp.
  assert ((verify_wesco_cleanup (BaseDir files)).2
          = (verify_wesco_cleanup (BaseDir files')).2) as Hrun.
  { destruct (verify_result files es Hes) as [-> _].
    destruct (verify_result files' es' Hes') as [-> _].
    apply outcome_invariant.
    - by rewrite Hp.
    - split; apply checklist_holds_Permutation; [done|by symmetry]. }
  split; [done|]. unfold exit_status. by rewrite Hrun.
Qed.

(** The sample records of one file in the two orders. *)
Lemma outcome_order_independent_witness :
  let f1 : gmap string file_content :=
    <["denver-metro.json" :=
        Document (Some [denver_kva_branch; pueblo_wesco_branch])]> ∅ in
  let f2 : gmap string file_content :=
    <["denver-metro.json" :=
        Document (Some [pueblo_wesco_branch; denver_kva_branch])]> ∅ in
  matched_entries f1 = Return (aggregate f1 files_to_check)
  ∧ matched_entries f2 = Return (aggregate f2 files_to_check)
  ∧ aggregate f1 files_to_check ≡ₚ aggregate f2 files_to_check
  ∧ (verify_wesco_cleanup (BaseDir f1)).2 = (verify_wesco_cleanup (BaseDir f2)).2.
Proof.
  intros f1 f2.
  assert (matched_entries f1 = Return (aggregate f1 files_to_check)) as H1
    by (vm_compute; reflexivity).
  assert (matched_entries f2 = Return (aggregate f2 files_to_check)) as H2
    by (vm_compute; reflexivity).
  assert (aggregate f1 files_to_check ≡ₚ aggregate f2 files_to_check) as H3.
  { vm_compute. apply perm_swap. }
  split; [exact H1|]. split; [exact H2|]. split; [exact H3|].
  exact (proj1 (outcome_order_independent _ _ _ _ H1 H2 H3)).
Defined.

(** ** A record listed once more *)

Lemma relisted_checklist es e f :
  e ∈ es → located "Denver" "11198 E 45th" e →
  Forall has_address es → checklist_holds es →
  Forall has_address (relisted f e :: es)
  ∧ checklist_holds (relisted f e :: es).
Proof.
  intros Hin [Hcity Haddr] Hes (Hn & Hd & Hc & (p & Hf & Hch) & Hr).
  rewrite Forall_forall in Hes, Hc, Hr.
  split; [constructor; [exact (Hes e Hin)|by apply Forall_forall]|].
  split; [|split; [|split; [|split]]].
  - rewrite <-Hn, <-!size_list_to_set_remove_dups. f_equal.
    apply set_eq. intros k. rewrite fmap_cons, !elem_of_list_to_set.
    rewrite elem_of_cons. split; [|by right].
    intros [->|?]; [|done]. apply list_elem_of_fmap. by exists e.
  - by right.
  - constructor; [|by apply Forall_forall].
    intros _. by apply (Hc e Hin).
  - exists p. split; [|done]. rewrite filter_cons_False; [done|].
    intros [Hp _]. cbn in Hp. congruence.
  - constructor; [exact (Hr e Hin)|by apply Forall_forall].
Qed.

(** X11. A further listing of a record in another file is tolerated for the
    Denver entry and not for the Pueblo entry. Let a run succeed on the
    aggregate [es], and let another scan return the entries of [es] and one
    more, a copy of an entry of [es] listed in a file [f].  If the copied
    entry is at the Denver address the second run succeeds too (exit status
    0); if it is at the Pueblo address the second run is unsuccessful (exit
    status 1). *)
Theorem relisting (files files' : gmap string file_content)
    (es es' : list matched_entry) (e : matched_entry) (f : string) :
  matched_entries files = Return es →
  matched_entries files' = Return es' →
  exit_status (BaseDir files) = 0 →
  e ∈ es →
  es' ≡ₚ relisted f e :: es →
  (located "Denver" "11198 E 45th" e → exit_status (BaseDir files') = 0)
  ∧ (located "Pueblo" "115 S Main" e → exit_status (BaseDir files') = 1).
Proof.
  intros Hscan Hscan' Hexit Hin Hp.
  destruct (verify_result files es Hscan) as [Hres _].
  destruct (verify_result files' es' Hscan') as [Hres' _].
  assert (Forall has_address es ∧ checklist_holds es) as [Hes Hok].
  { apply validate_true_iff. rewrite <-Hres. unfold exit_status in Hexit.
    by destruct (verify_wesco_cleanup (BaseDir files)).2 as [[]|]. }
  split.
  - intros Hden.
    destruct (relisted_checklist es e f Hin Hden Hes Hok) as [Hes2 Hok2].
    assert ((verify_wesco_cleanup (BaseDir files')).2 = Return true) as Hrun.
    { rewrite Hres'. apply validate_true_iff. split.
      - by rewrite Hp.
      - by apply (checklist_holds_Permutation (relisted f e :: es)). }
    unfold exit_status. by rewrite Hrun.
  - intros Hpue.
    assert (¬ checklist_holds es') as Hnot.
    { intros Hok'.
      apply (checklist_holds_Permutation es' (relisted f e :: es) Hp) in Hok'
        as (_ & _ & _ & (p & Hf & _) & _).
      rewrite filter_cons_True in Hf by done.
      assert (e ∈ filter (located "Pueblo" "115 S Main") es) as He
        by (by apply list_elem_of_filter).
      injection Hf as _ Hnil. rewrite Hnil in He. by apply elem_of_nil in He. }
    unfold exit_status. rewrite Hres'.
    destruct (validate es' (dedup es')).2 as [[]|] eqn:E; try done.
    exfalso. apply Hnot. by apply validate_true_iff in E as [_ ?].
Qed.

(** The sample data set, and the same with the Denver record also in the
    trade file. *)
Lemma relisting_witness :
  let e := make_entry "denver-metro.json" denver_kva_branch in
  let f := "us/co/electrical/denver-metro.json" in
  matched_entries sample_files = Return (aggregate sample_files files_to_check)
  ∧ matched_entries duplicated_files
    = Return (aggregate duplicated_files files_to_check)
  ∧ exit_status (BaseDir sample_files) = 0
  ∧ e ∈ aggregate sample_files files_to_check
  ∧ aggregate duplicated_files files_to_check
    ≡ₚ relisted f e :: aggregate sample_files files_to_check
  ∧ located "Denver" "11198 E 45th" e
  ∧ exit_status (BaseDir duplicated_files) = 0.
Proof.
  intros e f.
  assert (matched_entries sample_files
          = Return (aggregate sample_files files_to_check)) as H1
    by (vm_compute; reflexivity).
  assert (matched_entries duplicated_files
          = Return (aggregate duplicated_files files_to_check)) as H2
    by (vm_compute; reflexivity).
  assert (exit_status (BaseDir sample_files) = 0) as H3
    by (vm_compute; reflexivity).
  assert (e ∈ aggregate sample_files files_to_check) as H4 by (vm_compute; left).
  assert (aggregate duplicated_files files_to_check
          ≡ₚ relisted f e :: aggregate sample_files files_to_check) as H5.
  { vm_compute. apply perm_swap. }
  assert (located "Denver" "11198 E 45th" e) as H6 by by_compute.
  repeat (split; [assumption|]).
  exact (proj1 (relisting _ _ _ _ e f H1 H2 H3 H4 H5) H6).
Defined.

(** ** More on deduplication (source lines 93-99) *)

Lemma remove_dups_length {A} `{EqDecision A} (l : list A) :
  length (remove_dups l) ≤ length l.
Proof.
  induction l as [|x l IH]; simpl; [done|]. case_decide; simpl; lia.
Qed.

Lemma remove_dups_length_NoDup {A} `{EqDecision A} (l : list A) :
  length (remove_dups l) = length l ↔ NoDup l.
Proof.
  induction l as [|x l IH]; simpl.
  - split; [constructor|done].
  - rewrite NoDup_cons. pose proof (remove_dups_length l).
    case_decide as Hx; simpl.
    + split; [lia|]. by intros [? _].
    + rewrite <-IH. split; [intros [=]; done|intros [_ ->]; done].
Qed.

(** X12. What the map of unique locations holds. Every entry stored in it
    is an entry of the aggregate and sits under its own location key; a key
    is in the map exactly when some entry bears it; the number of unique
    locations is at most the number of entries, and equals it exactly when
    no two entries share a key. *)
Theorem dedup_invariants (es : list matched_entry) :
  (∀ k e, dedup es !! k = Some e → location_key e = k ∧ e ∈ es)
  ∧ (∀ k, is_Some (dedup es !! k) ↔ k ∈ location_key <$> es)
  ∧ size (dedup es) ≤ length es
  ∧ (size (dedup es) = length es ↔ NoDup (location_key <$> es)).
Proof.
  split; [|split; [|split]].
  - intros k e. unfold dedup. rewrite foldl_dedup_lookup, lookup_empty.
    intros He. apply head_Some_elem_of, list_elem_of_filter in He. done.
  - intros k. rewrite <-elem_of_dom. unfold dedup.
    rewrite foldl_dedup_dom, dom_empty_L, elem_of_union, elem_of_list_to_set.
    set_solver.
  - rewrite dedup_size, <-(length_fmap location_key es).
    apply remove_dups_length.
  - rewrite dedup_size, <-(length_fmap location_key es).
    apply remove_dups_length_NoDup.
Qed.

Lemma dedup_app_seen es es' :
  Forall (λ e, location_key e ∈ location_key <$> es) es' →
  dedup (es ++ es') = dedup es.
Proof.
  intros Hseen. unfold dedup. rewrite foldl_app. fold (dedup es).
  assert (∀ k, k ∈ location_key <$> es → is_Some (dedup es !! k)) as Hdom.
  { intros k Hk. rewrite <-elem_of_dom. unfold dedup.
    rewrite foldl_dedup_dom, dom_empty_L, elem_of_union, elem_of_list_to_set.
    by right. }
  generalize (dedup es) Hdom. clear Hdom.
  induction Hseen as [|e es' He _ IH]; intros m Hdom; [done|].
  simpl. unfold dedup_step at 2. destruct (Hdom _ He) as [v ->]. by apply IH.
Qed.

(** X13. Deduplication is idempotent on repeats: entries whose keys were
    already seen, appended to the aggregate, change nothing of the map, so
    an aggregate read twice gives the same map as read once; and the number
    of unique locations is the same for every order of the entries. *)
Theorem dedup_idempotent (es : list matched_entry) :
  (∀ es', Forall (λ e, location_key e ∈ location_key <$> es) es' →
          dedup (es ++ es') = dedup es)
  ∧ dedup (es ++ es) = dedup es
  ∧ (∀ es', es ≡ₚ es' → size (dedup es') = size (dedup es)).
Proof.
  split; [|split].
  - apply dedup_app_seen.
  - apply dedup_app_seen, Forall_forall. intros e He.
    apply list_elem_of_fmap. by exists e.
  - intros es' Hp. rewrite !dedup_size, <-!size_list_to_set_remove_dups.
    f_equal. apply set_eq. intros k. rewrite !elem_of_list_to_set.
    by rewrite Hp.
Qed.

Lemma string_app_assoc (a b c : string) : (a +:+ b) +:+ c = a +:+ b +:+ c.
Proof.
  induction a as [|x a IH]; [done|].
  change (String x ((a +:+ b) +:+ c) = String x (a +:+ b +:+ c)).
  by rewrite IH.
Qed.

(** X14. The location key is ambiguous: it joins city and address with a
    dash and renders a missing field as the text None, so an entry with a
    dash in its city collides with the entry that has the part after the
    dash in front of its address, and an entry without city collides with
    one whose city is the text None.  Such entries count as one unique
    location, the first one winning. *)
Theorem location_key_collisions (n ch p v o : option string)
    (file1 file2 c x a : string) :
  let e1 := MatchedEntry file1 n ch (Some (c +:+ "-" +:+ x)) (Some a) p v o in
  let e2 := MatchedEntry file2 n ch (Some c) (Some (x +:+ "-" +:+ a)) p v o in
  let e3 := MatchedEntry file1 n ch None (Some a) p v o in
  let e4 := MatchedEntry file2 n ch (Some "None") (Some a) p v o in
  location_key e1 = location_key e2
  ∧ location_key e3 = location_key e4
  ∧ dedup [e1; e2] = {[ location_key e1 := e1 ]}
  ∧ size (dedup [e1; e2]) = 1
  ∧ size (dedup [e3; e4]) = 1.
Proof.
  intros e1 e2 e3 e4.
  assert (location_key e1 = location_key e2) as H12.
  { unfold location_key, e1, e2. cbn [city address py_str].
    by rewrite !string_app_assoc. }
  assert (location_key e3 = location_key e4) as H34 by done.
  assert (∀ a b : matched_entry, location_key a = location_key b →
            dedup [a; b] = {[ location_key a := a ]}) as Hmerge.
  { intros e e' He. unfold dedup. cbn [foldl]. unfold dedup_step.
    rewrite lookup_empty, <-He, lookup_insert_eq. by rewrite insert_empty. }
  split; [done|]. split; [done|]. split; [by apply Hmerge|].
  rewrite !Hmerge by done. by rewrite !map_size_singleton.
Qed.

(** ** The console of a run that returns *)

Lemma record_entries_console filepath bs acc :
  (record_entries filepath bs acc).1 = flat_map record_block bs.
Proof.
  revert acc. induction bs as [|b bs IH]; intros acc; [done|].
  cbn [record_entries]. rewrite !bind_print. cbn [fst]. by rewrite IH.
Qed.

Lemma scan_file_console files acc filepath :
  files !! filepath ≠ Some Malformed →
  (scan_file files acc filepath).1 = file_block files filepath.
Proof.
  intros Hok. unfold scan_file, file_block, branches_at. destruct acc as [es n].
  destruct (files !! filepath) as [[|data]|]; [done| |done].
  destruct (wesco_entries_of (default [] data)) as [|b bs] eqn:Hw; [done|].
  destruct (record_entries_result filepath (b :: bs) es) as [o Ho].
  rewrite !bind_print, (bind_eq _ _ _ _ Ho), bind_print. cbn [fst ret].
  pose proof (record_entries_console filepath (b :: bs) es) as Hc.
  rewrite Ho in Hc. cbn [fst] in Hc. by rewrite Hc.
Qed.

Lemma scan_files_console files paths acc :
  Forall (λ p, files !! p ≠ Some Malformed) paths →
  (scan_files files paths acc).1 = flat_map (file_block files) paths.
Proof.
  intros Hok. revert acc. induction Hok as [|p paths Hp _ IH]; intros acc;
    [done|].
  cbn [scan_files flat_map]. destruct acc as [es n].
  destruct (scan_file_result files es n p Hp) as [o Ho].
  rewrite (bind_eq _ _ _ _ Ho). cbn [fst]. rewrite IH.
  pose proof (scan_file_console files (es, n) p Hp) as Hc.
  rewrite Ho in Hc. cbn [fst] in Hc. by rewrite Hc.
Qed.

(** X15. The whole console of a run that returns. When no expected file is
    malformed and every matching entry carries an address, the console is,
    in this order: the four heading lines; for each expected file that
    holds a matching record, its heading, its two counts, three lines per
    matching record and an empty line (nothing for the other files); the
    summary with the three counts; the reports of the six checks; and the
    closing block of the flag returned. *)
Theorem console_of_run (files : gmap string file_content) :
  let es := aggregate files files_to_check in
  let u := dedup es in
  let b := forallb (λ it : bool → M bool, passes (it true)) (items es u) in
  Forall (λ p, files !! p ≠ Some Malformed) files_to_check →
  Forall has_address es →
  verify_wesco_cleanup (BaseDir files)
  = (header
     ++ flat_map (file_block files) files_to_check
     ++ [ banner; "SUMMARY"; banner;
          "Total branches scanned: "
            +:+ pretty (total_scanned files files_to_check);
          "Total WESCO/KVA entries found: " +:+ pretty (length es);
          "";
          "Unique WESCO/KVA locations: " +:+ pretty (size u);
          "" ]
     ++ checklist_lines es u
     ++ (final_report b).1,
     Return b).
Proof.
  intros es u b Hok Hes.
  destruct (scan_files_result files files_to_check [] 0 Hok) as [o Ho].
  cbn [app] in Ho. rewrite Nat.add_0_l in Ho. fold es in Ho.
  pose proof (scan_files_console files files_to_check ([], 0) Hok) as Hc.
  rewrite Ho in Hc. cbn [fst] in Hc. subst o.
  rewrite (verify_spec _ _ _ _ Ho), (validate_spec es Hes). cbn [fst snd].
  unfold checklist_lines. fold u b. f_equal.
  by rewrite <-!app_assoc.
Qed.

Lemma console_of_run_witness :
  Forall (λ p, sample_files !! p ≠ Some Malformed) files_to_check
  ∧ Forall has_address (aggregate sample_files files_to_check)
  ∧ length (verify_wesco_cleanup (BaseDir sample_files)).1 = 50.
Proof.
  assert (Forall (λ p, sample_files !! p ≠ Some Malformed) files_to_check)
    as H1 by (repeat constructor; by vm_compute).
  assert (Forall has_address (aggregate sample_files files_to_check)) as H2
    by (repeat constructor; by eexists).
  split; [exact H1|]. split; [exact H2|].
  rewrite (console_of_run sample_files H1 H2). vm_compute. reflexivity.
Defined.

(** * Missing files, and runs cut short *)

(** ** Missing files *)

(** The scan stops at the first malformed file: the files before it have
    been loaded and filtered, the files after it are never opened. *)
Lemma scan_files_stops files good bad rest acc :
  Forall (λ p, files !! p ≠ Some Malformed) good →
  files !! bad = Some Malformed →
  scan_files files (good ++ bad :: rest) acc
  = (flat_map (file_block files) good, Raise JSONDecodeError).
Proof.
  intros Hgood Hbad. revert acc.
  induction Hgood as [|p good Hp _ IH]; intros [es n].
  - cbn [app scan_files flat_map]. unfold scan_file. by rewrite Hbad.
  - cbn [app scan_files flat_map].
    destruct (scan_file_result files es n p Hp) as [o Ho].
    pose proof (scan_file_console files (es, n) p Hp) as Hc.
    rewrite Ho in Hc. cbn [fst] in Hc. subst o.
    by rewrite (bind_eq _ _ _ _ Ho), IH.
Qed.

Lemma scan_files_skip files pre p post acc :
  files !! p = None →
  scan_files files (pre ++ p :: post) acc = scan_files files (pre ++ post) acc.
Proof.
  intros Hp.
  rewrite (scan_files_present files (pre ++ p :: post)),
    (scan_files_present files (pre ++ post)).
  rewrite !filter_app, filter_cons.
  case_decide as H'; [|done]. rewrite Hp in H'. by destruct H'.
Qed.

(** C6, as stated, fails. The first expected file is missing, the second is
    present and not valid JSON, and the Pueblo file is present with a
    matching record: the run stops in the JSON decoding error at the second
    file, with the four heading lines on the console, so the Pueblo file,
    which is present, is never loaded and its record never filtered. With
    the second file absent instead, the Pueblo record is loaded and
    matched. *)
Lemma malformed_stops_loading :
  skip_then_malformed_files !! "denver-metro.json" = None
  ∧ filter (λ p, is_Some (skip_then_malformed_files !! p)) files_to_check
    = ["electrical/denver-metro.json"; "electrical/pueblo-south.json"]
  ∧ wesco_entries_of
      (branches_at skip_then_malformed_files "electrical/pueblo-south.json")
    = [pueblo_wesco_branch]
  ∧ scan_files skip_then_malformed_files files_to_check ([], 0)
    = ([], Raise JSONDecodeError)
  ∧ matched_entries skip_then_malformed_files = Raise JSONDecodeError
  ∧ verify_wesco_cleanup (BaseDir skip_then_malformed_files)
    = (header, Raise JSONDecodeError)
  ∧ exit_status (BaseDir skip_then_malformed_files) = 1
  ∧ matched_entries (delete "electrical/denver-metro.json"
                       skip_then_malformed_files)
    = Return [make_entry "electrical/pueblo-south.json" pueblo_wesco_branch].
Proof. repeat split; vm_compute; reflexivity. Qed.

(** C6, amended. With the base directory in place, an expected file that
    does not exist is skipped silently: the scan is the scan of the list
    without it (same console, same accumulator, same outcome), so the run
    is the run over the expected files that exist. When every expected
    file that exists is valid JSON, all of them are loaded and filtered:
    the scan returns, its console holds the block of each present file in
    the order of the list, the aggregate holds, in that order, the entries
    of the matching records of the present files, an entry for every such
    record, and the counter is the number of their records. A present
    file that is not valid JSON aborts the run at that file: the present
    files before it have been loaded and filtered, and the run ends in the
    JSON decoding error. Missing files are no failure by themselves: the
    sample data set, with four of the six files absent, exits with
    status 0. *)
Theorem missing_files_skipped (files : gmap string file_content) :
  let present := filter (λ p, is_Some (files !! p)) files_to_check in
  (∀ pre p post acc,
     files !! p = None →
     scan_files files (pre ++ p :: post) acc
     = scan_files files (pre ++ post) acc)
  ∧ scan_files files files_to_check ([], 0) = scan_files files present ([], 0)
  ∧ verify_wesco_cleanup (BaseDir files) = verify_paths present (BaseDir files)
  ∧ (Forall (λ p, files !! p ≠ Some Malformed) present →
     scan_files files files_to_check ([], 0)
     = (flat_map (file_block files) present,
        Return (aggregate files present, total_scanned files present))
     ∧ matched_entries files = Return (aggregate files present)
     ∧ (∀ p data b,
          p ∈ files_to_check → files !! p = Some (Document data) →
          b ∈ default [] data → is_wesco b = true →
          make_entry p b ∈ aggregate files present)
     ∧ (verify_wesco_cleanup (BaseDir files)).2
       = (validate (aggregate files present)
                   (dedup (aggregate files present))).2)
  ∧ (∀ good bad rest,
       present = good ++ bad :: rest →
       Forall (λ p, files !! p ≠ Some Malformed) good →
       files !! bad = Some Malformed →
       scan_files files files_to_check ([], 0)
       = (flat_map (file_block files) good, Raise JSONDecodeError)
       ∧ verify_wesco_cleanup (BaseDir files)
         = (header ++ flat_map (file_block files) good,
            Raise JSONDecodeError)
       ∧ exit_status (BaseDir files) = 1)
  ∧ (Exists (λ p, sample_files !! p = None) files_to_check
     ∧ exit_status (BaseDir sample_files) = 0).
Proof.
  intros present.
  pose proof (scan_files_present files files_to_check ([], 0)) as Hpres.
  fold present in Hpres.
  split; [intros pre p post acc; apply scan_files_skip|].
  split; [exact Hpres|].
  split; [apply verify_present_paths|].
  split; [|split; [|split; [right; left|]; vm_compute; reflexivity]].
  - intros Hok.
    destruct (scan_files_result files present [] 0 Hok) as [o Ho].
    cbn [app] in Ho. rewrite Nat.add_0_l in Ho.
    pose proof (scan_files_console files present ([], 0) Hok) as Hc.
    rewrite Ho in Hc. cbn [fst] in Hc. subst o.
    rewrite <-Hpres in Ho.
    split; [exact Ho|].
    split; [unfold matched_entries; by rewrite Ho|].
    split.
    + intros p data b Hp Hdoc Hb Hw. apply elem_of_aggregate.
      exists p, b. split.
      * apply list_elem_of_filter. split; [by rewrite Hdoc|done].
      * unfold branches_at. by rewrite Hdoc.
    + by rewrite (verify_spec _ _ _ _ Ho).
  - intros good bad rest Heq Hgood Hbad.
    assert (scan_files files files_to_check ([], 0)
            = (flat_map (file_block files) good, Raise JSONDecodeError))
      as Hscan.
    { rewrite Hpres, Heq. by apply scan_files_stops. }
    assert (verify_wesco_cleanup (BaseDir files)
            = (header ++ flat_map (file_block files) good,
               Raise JSONDecodeError)) as Hrun.
    { unfold verify_wesco_cleanup, verify_paths. rewrite !bind_print.
      by rewrite Hscan, bind_Raise. }
    split; [exact Hscan|]. split; [exact Hrun|].
    unfold exit_status. by rewrite Hrun.
Qed.

Lemma missing_files_skipped_witness :
  sample_files !! "electrical/denver-metro.json" = None
  ∧ Forall (λ p, sample_files !! p ≠ Some Malformed)
      (filter (λ p, is_Some (sample_files !! p)) files_to_check)
  ∧ matched_entries sample_files
    = Return [make_entry "denver-metro.json" denver_kva_branch;
              make_entry "electrical/pueblo-south.json" pueblo_wesco_branch]
  ∧ (verify_wesco_cleanup (BaseDir sample_files)).2 = Return true.
Proof.
  assert (Forall (λ p, sample_files !! p ≠ Some Malformed)
            (filter (λ p, is_Some (sample_files !! p)) files_to_check))
    as H1 by (repeat constructor; by vm_compute).
  split; [vm_compute; reflexivity|]. split; [exact H1|].
  destruct (missing_files_skipped sample_files)
    as (_ & _ & _ & Hall & _ & _).
  destruct (Hall H1) as (_ & Hm & _ & Hv).
  split.
  - rewrite Hm. vm_compute. reflexivity.
  - rewrite Hv. vm_compute. reflexivity.
Defined.

(** ** Runs cut short by a matching record without [address1] *)

(** Line 74 records [entry.get('address1')] with no default, unlike the
    filter of lines 58-60, which reads [chain] and [name] with the default
    [''].  The three comprehensions of the validation phase (lines 115, 152
    and 178) then apply [in] to [None], and the run leaves the checklist
    where the first of them meets such an entry.  The four theorems below
    evaluate the script on such data sets. *)

(** C2. The checklist is not completed on [cut_short_files]: the two
    expected locations, and a third matching record, in Boulder, without
    [address1]. The scan returns the three entries. The validation phase
    starts, reports the failed count check, the Denver check and the Pueblo
    check, prints the heading of the removed-entry checks and stops in a
    [TypeError] at the first of them: none of the three removed-entry
    checks is reported, no flag is returned (neither [True] nor [False]),
    neither closing banner is printed, and the exit status is 1. *)
Theorem checklist_cut_short :
  let es := aggregate cut_short_files files_to_check in
  let run := verify_wesco_cleanup (BaseDir cut_short_files) in
  matched_entries cut_short_files = Return es
  ∧ es = [ make_entry "denver-metro.json" denver_kva_branch;
           make_entry "electrical/pueblo-south.json" pueblo_wesco_branch;
           make_entry "electrical/boulder-broomfield-longmont.json"
                      (no_address_branch "Boulder") ]
  ∧ validate es (dedup es)
    = ([ "❌ FAIL: Expected exactly 2 unique WESCO locations, found 3";
         "✅ PASS: Denver KVA Supply Co entry correctly configured";
         "   Name: KVA Supply Co";
         "   Chain: WESCO";
         "   Operating Name: KVA Supply Co";
         "   Phone: None";
         "✅ PASS: Pueblo WESCO entry correctly retained";
         "   Name: WESCO";
         "   Phone: None";
         "";
         "Checking for removed entries..." ],
       Raise TypeError)
  ∧ run.2 = Raise TypeError
  ∧ exit_status (BaseDir cut_short_files) = 1
  ∧ Forall (λ addr,
      (("✅ PASS: Confirmed removed: " +:+ addr) ∉ run.1)
      ∧ (("❌ FAIL: Found entry that should have been removed: " +:+ addr)
         ∉ run.1)) invalid_addresses
  ∧ Forall (λ l, is_banner_line l = false) run.1.
Proof.
  repeat split; try (vm_compute; reflexivity); by_compute.
Qed.

(** C7. The Denver check fails and the overall result is not [False] on
    [inconsistent_no_address_files]: two entries at the Denver address, one
    of them with another name, the Pueblo entry, and a matching
    record in Boulder without [address1]. The scan returns the four
    entries; an entry has city Denver and an address containing
    11198 E 45th, and one such entry has a name other than KVA Supply Co.
    The Denver check reports FAIL and leaves [success] at [False], the
    Pueblo check reports PASS, and the run stops in a [TypeError] at the
    first removed-entry check: no [False] is returned, the banner
    SOME CHECKS FAILED is not printed, and the exit status is 1. *)
Theorem denver_check_cut_short :
  let es := aggregate inconsistent_no_address_files files_to_check in
  let run := verify_wesco_cleanup (BaseDir inconsistent_no_address_files) in
  matched_entries inconsistent_no_address_files = Return es
  ∧ Exists (located "Denver" "11198 E 45th") es
  ∧ Exists (λ e, located "Denver" "11198 E 45th" e
                 ∧ (name e ≠ Some "KVA Supply Co"
                    ∨ chain e ≠ Some "WESCO")) es
  ∧ check_denver es true
    = (["❌ FAIL: Denver KVA Supply Co entries are inconsistent"],
       Return false)
  ∧ validate es (dedup es)
    = ([ "❌ FAIL: Expected exactly 2 unique WESCO locations, found 3";
         "❌ FAIL: Denver KVA Supply Co entries are inconsistent";
         "✅ PASS: Pueblo WESCO entry correctly retained";
         "   Name: WESCO";
         "   Phone: None";
         "";
         "Checking for removed entries..." ],
       Raise TypeError)
  ∧ run.2 = Raise TypeError
  ∧ run.2 ≠ Return false
  ∧ exit_status (BaseDir inconsistent_no_address_files) = 1
  ∧ Forall (λ l, is_banner_line l = false) run.1.
Proof.
  intros es run.
  split; [vm_compute; reflexivity|].
  split; [by_compute|].
  split.
  { right. left. split; [by_compute|]. left. by vm_compute. }
  split; [vm_compute; reflexivity|].
  split; [vm_compute; reflexivity|].
  split; [vm_compute; reflexivity|].
  split; [by vm_compute|].
  split; [vm_compute; reflexivity|].
  by_compute.
Qed.

(** C8. The Pueblo check neither passes nor fails on
    [pueblo_no_address_files]: the two expected locations and a second
    Pueblo record, without [address1]. The scan returns the three entries;
    exactly one of them has city Pueblo and an address containing
    115 S Main, and its chain is WESCO. The Denver check reports PASS, and
    the comprehension of the Pueblo check stops in a [TypeError]: the
    Pueblo check reports neither PASS nor FAIL, no flag is returned, and
    the exit status is 1. *)
Theorem pueblo_check_cut_short :
  let es := aggregate pueblo_no_address_files files_to_check in
  let run := verify_wesco_cleanup (BaseDir pueblo_no_address_files) in
  matched_entries pueblo_no_address_files = Return es
  ∧ (∃ e, filter (located "Pueblo" "115 S Main") es = [e]
          ∧ chain e = Some "WESCO")
  ∧ (∀ s, check_pueblo es s = ([], Raise TypeError))
  ∧ validate es (dedup es)
    = ([ "❌ FAIL: Expected exactly 2 unique WESCO locations, found 3";
         "✅ PASS: Denver KVA Supply Co entry correctly configured";
         "   Name: KVA Supply Co";
         "   Chain: WESCO";
         "   Operating Name: KVA Supply Co";
         "   Phone: None" ],
       Raise TypeError)
  ∧ run.2 = Raise TypeError
  ∧ exit_status (BaseDir pueblo_no_address_files) = 1
  ∧ ("✅ PASS: Pueblo WESCO entry correctly retained" ∉ run.1)
  ∧ (∀ n : nat,
       ("❌ FAIL: Expected 1 Pueblo WESCO entry, found " +:+ pretty n)
       ∉ run.1)
  ∧ (∀ c : string,
       ("❌ FAIL: Pueblo entry chain is '" +:+ c +:+ "', expected 'WESCO'")
       ∉ run.1).
Proof.
  intros es run.
  split; [vm_compute; reflexivity|].
  split; [eexists; split; vm_compute; reflexivity|].
  split; [intros []; vm_compute; reflexivity|].
  split; [vm_compute; reflexivity|].
  split; [vm_compute; reflexivity|].
  split; [vm_compute; reflexivity|].
  split; [by_compute|].
  assert (Forall (λ l, String.prefix "❌ FAIL: " l = false
                       ∨ l = "❌ FAIL: Expected exactly 2 unique WESCO locations, found 3")
            run.1) as Hno by by_compute.
  rewrite Forall_forall in Hno.
  split.
  - intros n Hin. destruct (Hno _ Hin) as [H|H].
    + apply not_true_iff_false in H. apply H, prefix_spec.
      by exists ("Expected 1 Pueblo WESCO entry, found " +:+ pretty n).
    + discriminate H.
  - intros c Hin. destruct (Hno _ Hin) as [H|H].
    + apply not_true_iff_false in H. apply H, prefix_spec.
      by exists ("Pueblo entry chain is '" +:+ c +:+ "', expected 'WESCO'").
    + discriminate H.
Qed.

(** C9. The removed-entry checks are not reached on
    [jason_no_address_files]: the two expected locations, an entry at
    756 S Jason St, and a Denver record without [address1]. The scan
    returns the four entries; one has an address containing 756 S Jason,
    none an address containing 6883 E 47th or 133 Commerce. The run
    reports the failed count check and stops in a [TypeError] in the
    comprehension of the Denver check: the check of 756 S Jason does not
    fail, the checks of the two other addresses do not pass, none of the
    three is reported, no [False] is returned, and the exit status is 1.
    Each of the three checks, run on these entries by itself, stops in the
    same error. *)
Theorem removed_checks_cut_short :
  let es := aggregate jason_no_address_files files_to_check in
  let run := verify_wesco_cleanup (BaseDir jason_no_address_files) in
  matched_entries jason_no_address_files = Return es
  ∧ Exists (address_has "756 S Jason") es
  ∧ ¬ Exists (address_has "6883 E 47th") es
  ∧ ¬ Exists (address_has "133 Commerce") es
  ∧ validate es (dedup es)
    = (["❌ FAIL: Expected exactly 2 unique WESCO locations, found 4"],
       Raise TypeError)
  ∧ (∀ addr s, addr ∈ invalid_addresses →
       check_removed es addr s = ([], Raise TypeError))
  ∧ run.2 = Raise TypeError
  ∧ run.2 ≠ Return false
  ∧ exit_status (BaseDir jason_no_address_files) = 1
  ∧ Forall (λ addr,
      (("✅ PASS: Confirmed removed: " +:+ addr) ∉ run.1)
      ∧ (("❌ FAIL: Found entry that should have been removed: " +:+ addr)
         ∉ run.1)) invalid_addresses.
Proof.
  intros es run.
  split; [vm_compute; reflexivity|].
  split; [by_compute|].
  split; [by_compute|].
  split; [by_compute|].
  split; [vm_compute; reflexivity|].
  split.
  { intros addr s Hin. unfold invalid_addresses in Hin.
    repeat (apply elem_of_cons in Hin as [->|Hin]);
      [destruct s; vm_compute; reflexivity ..|by apply elem_of_nil in Hin]. }
  split; [vm_compute; reflexivity|].
  split; [by vm_compute|].
  split; [vm_compute; reflexivity|].
  by_compute.
Qed.
